(** * Grid search of ARIMA hyperparameters and the XGBoost thread-count timer

    A shallow embedding of the two notebook scripts:

    - [evaluate_arima_model] and [evaluate_models] (walk-forward evaluation of
      one ARIMA order, and the grid search over orders);
    - the thread-count timing loop around [XGBClassifier(nthread=n).fit];
    - the date [parser] of the shampoo-sales script, the split of the Otto
      table into [X] and [y], and the three timed cross validations.

    Python floats are IEEE-754 binary64 values, modelled by [spec_float] with
    precision 53 and maximal exponent 1024.  The statistical libraries
    (statsmodels, scikit-learn, xgboost) and the wall clock are parameters of
    the development: the scripts only orchestrate calls to them. *)

From Stdlib Require Import ZArith Lia List String Ascii Bool.
From Stdlib Require Import Floats.SpecFloat.
From stdpp Require Import gmap strings list pretty.

(** * Part I: the programs *)

(** ** Python exceptions *)

Inductive exn : Type :=
  | ValueError
  | TypeError
  | IndexError
  | OverflowError
  | LinAlgError
  | KeyboardInterrupt
  | OtherError (name : string)
  (** [Stuck]: the run left the modelled fragment of Python (a dangling
      reference, [str] of a float).  The scripts never raise it. *)
  | Stuck.

Global Instance exn_ret : MRet (sum exn) := λ A a, inr a.
Global Instance exn_bind : MBind (sum exn) := λ A B k m,
  match m with inr a => k a | inl e => inl e end.

(** ** Binary64 arithmetic *)

Module F64.

Definition prec : Z := 53.
Definition emax : Z := 1024.

(** [float(n)] for a Python integer: the nearest binary64 value. *)
Definition of_int (n : Z) : spec_float := binary_normalize prec emax n 0 false.

Definition add : spec_float → spec_float → spec_float := SFadd prec emax.
Definition mul : spec_float → spec_float → spec_float := SFmul prec emax.
Definition sub : spec_float → spec_float → spec_float := SFsub prec emax.
Definition div : spec_float → spec_float → spec_float := SFdiv prec emax.
Definition ltb : spec_float → spec_float → bool := SFltb.
Definition leb : spec_float → spec_float → bool := SFleb.

(** [float("inf")] *)
Definition inf : spec_float := S754_infinity false.

(** The literal [0.66]: the binary64 value nearest to 66/100. *)
Definition lit_0_66 : spec_float := S754_finite false 5944751508129055 (-53).

(** [int(x)]: truncation toward zero; infinities and NaN raise. *)
Definition to_int (x : spec_float) : exn + Z :=
  match x with
  | S754_zero _ => inr 0%Z
  | S754_finite s m e => inr (cond_Zopp s (Z.shiftl (Z.pos m) e))
  | S754_infinity _ => inl OverflowError
  | S754_nan => inl ValueError
  end.

(** A float that is a well-formed binary64 number (not NaN, not infinite). *)
Definition finite (x : spec_float) : bool :=
  match x with
  | S754_zero _ => true
  | S754_finite _ _ _ => valid_binary prec emax x
  | _ => false
  end.

(** [0.0 <= x], in the sense that excludes NaN. *)
Definition nonneg (x : spec_float) : bool :=
  match x with
  | S754_zero _ | S754_finite false _ _ | S754_infinity false => true
  | _ => false
  end.

(** [numpy.float32(x)]: rounding to binary32 (precision 24, emax 128). *)
Definition to_float32 (x : spec_float) : spec_float :=
  match x with
  | S754_finite s m e => binary_round 24 128 s m e
  | _ => x
  end.

(** Rounding of the rational [num/den] to the nearest integer, ties to even. *)
Definition round_half_even (num den : Z) : Z :=
  let q := (num / den)%Z in
  match (2 * (num mod den) ?= den)%Z with
  | Lt => q
  | Gt => (q + 1)%Z
  | Eq => if Z.even q then q else (q + 1)%Z
  end.

Definition sign_str (s : bool) : string := if s then "-" else EmptyString.

Definition pad3 (n : Z) : string :=
  (if (n <? 10)%Z then "00" else if (n <? 100)%Z then "0" else EmptyString) +:+ pretty n.

(** ['%.3f' % x] *)
Definition fixed3 (x : spec_float) : string :=
  match x with
  | S754_nan => "nan"
  | S754_infinity s => sign_str s +:+ "inf"
  | S754_zero s => sign_str s +:+ "0.000"
  | S754_finite s m e =>
      let n := if (0 <=? e)%Z then (Z.pos m * 2 ^ e * 1000)%Z
               else round_half_even (Z.pos m * 1000) (2 ^ (- e)) in
      sign_str s +:+ pretty (n / 1000)%Z +:+ "." +:+ pad3 (n mod 1000)
  end.

End F64.

(** ** Python values that are printed or formatted *)

#[warnings="-register-all"]
Inductive pyval : Type :=
  | PyNone
  | PyInt (n : Z)
  | PyFloat (x : spec_float)
  | PyStr (s : string)
  | PyTuple (items : list pyval).

(** [repr] of a tuple item; only integers occur in the scripts' tuples. *)
Definition py_repr_item (v : pyval) : exn + string :=
  match v with
  | PyInt n => inr (pretty n)
  | PyNone => inr "None"
  | _ => inl Stuck
  end.

(** [str(v)], as used by the [%s] directive. *)
Definition py_str (v : pyval) : exn + string :=
  match v with
  | PyNone => inr "None"
  | PyInt n => inr (pretty n)
  | PyStr s => inr s
  | PyFloat _ => inl Stuck
  | PyTuple items =>
      strs ← mapM py_repr_item items;
      match strs with
      | [s] => inr ("(" +:+ s +:+ ",)")
      | _ => inr ("(" +:+ String.concat ", " strs +:+ ")")
      end
  end.

(** The argument of [%.3f] must be a number. *)
Definition py_float (v : pyval) : exn + spec_float :=
  match v with
  | PyFloat x => inr x
  | PyInt n => inr (F64.of_int n)
  | _ => inl TypeError
  end.

(** [fmt % args] for the directives [%s], [%.3f] and [%%].  Too few or too
    many arguments raise [TypeError], as in Python. *)
Fixpoint py_format_args (fmt : string) (args : list pyval) : exn + string :=
  match fmt with
  | EmptyString => match args with [] => inr EmptyString | _ => inl TypeError end
  | String "%" (String "s" rest) =>
      match args with
      | [] => inl TypeError
      | a :: args' => s ← py_str a; r ← py_format_args rest args'; mret (s +:+ r)
      end
  | String "%" (String "." (String "3" (String "f" rest))) =>
      match args with
      | [] => inl TypeError
      | a :: args' => x ← py_float a; r ← py_format_args rest args'; mret (F64.fixed3 x +:+ r)
      end
  | String "%" (String "%" rest) => r ← py_format_args rest args; mret (String "%" r)
  | String "%" _ => inl Stuck
  | String c rest => r ← py_format_args rest args; mret (String c r)
  end.

Definition py_format (fmt : string) (arg : pyval) : exn + string :=
  match arg with
  | PyTuple args => py_format_args fmt args
  | v => py_format_args fmt [v]
  end.

(** ** A state-and-exception monad for Python statements *)

Definition M (S A : Type) : Type := S → S * (exn + A).

Global Instance M_ret {S} : MRet (M S) := λ A a s, (s, inr a).
Global Instance M_bind {S} : MBind (M S) := λ A B k m s,
  match m s with
  | (s', inr a) => k a s'
  | (s', inl e) => (s', inl e)
  end.

Definition lift_exn {S A} (r : exn + A) : M S A := λ s, (s, r).

(** [try: body except: handler] with a bare [except]: every exception is
    caught; the state changes made before the exception stay. *)
Definition try_except {S A} (body : M S A) (handler : exn → M S A) : M S A := λ s,
  match body s with
  | (s', inl e) => handler e s'
  | r => r
  end.

(** [for x in l: body] *)
Fixpoint for_each {S A} (l : list A) (body : A → M S unit) : M S unit :=
  match l with
  | [] => mret tt
  | x :: l' => body x;; for_each l' body
  end.

(** Statements of a callee run on the first component of the state; the
    second component holds the caller's local variables. *)
Definition lift {S L A} (m : M S A) : M (S * L) A := λ '(s, l),
  let '(s', r) := m s in ((s', l), r).

Definition get_locals {S L} : M (S * L) L := λ '(s, l), ((s, l), inr l).
Definition assign {S L} (l : L) : M (S * L) unit := λ '(s, _), ((s, l), inr tt).

(** [range(n)] *)
Definition py_range (n : Z) : list Z := Z.of_nat <$> seq 0 (Z.to_nat n).

(** ** The object store *)

Definition loc : Type := positive.

(** The store holds the buffers of numpy arrays and the Python lists;
    [stdout] records what [print] wrote. *)
Record world : Type := World {
  heap : gmap loc (list spec_float);
  stdout : list pyval
}.

(** A one-dimensional numpy array: a window on a buffer.  Slices share the
    buffer of the array they are taken from. *)
Record ndarray : Type := NdArray {
  nd_buf : loc;
  nd_off : nat;
  nd_len : nat
}.

Definition np_len (a : ndarray) : Z := Z.of_nat (nd_len a).

(** Where a slice bound lands, for a sequence of length [len]. *)
Definition slice_index (len i : Z) : Z :=
  if (i <? 0)%Z then Z.max (i + len) 0 else Z.min i len.

(** [a[i:j]] and, with [j = None], [a[i:]] *)
Definition np_slice (a : ndarray) (i : Z) (j : option Z) : ndarray :=
  let lo := slice_index (np_len a) i in
  let hi := match j with Some j => slice_index (np_len a) j | None => np_len a end in
  {| nd_buf := nd_buf a;
     nd_off := nd_off a + Z.to_nat lo;
     nd_len := Z.to_nat (hi - lo) |}.

(** The elements an array denotes in a given heap. *)
Definition nd_contents (h : gmap loc (list spec_float)) (a : ndarray)
  : option (list spec_float) :=
  buf ← h !! nd_buf a;
  if decide (nd_off a + nd_len a ≤ length buf)
  then Some (take (nd_len a) (drop (nd_off a) buf))
  else None.

(** Iterating over an array, or handing it to a library that reads it. *)
Definition np_read (a : ndarray) : M world (list spec_float) := λ w,
  match nd_contents (heap w) a with
  | Some xs => (w, inr xs)
  | None => (w, inl Stuck)
  end.

(** [a[t]] *)
Definition np_getitem (a : ndarray) (t : Z) : M world spec_float := λ w,
  match nd_contents (heap w) a with
  | None => (w, inl Stuck)
  | Some xs =>
      let i := if (t <? 0)%Z then (t + np_len a)%Z else t in
      if (0 <=? i)%Z
      then match xs !! Z.to_nat i with
           | Some x => (w, inr x)
           | None => (w, inl IndexError)
           end
      else (w, inl IndexError)
  end.

(** A fresh object holding [xs]: a new Python list or a new array buffer. *)
Definition alloc (xs : list spec_float) : M world loc := λ w,
  let l := fresh (dom (heap w)) in
  ({| heap := <[l:=xs]> (heap w); stdout := stdout w |}, inr l).

Definition list_read (l : loc) : M world (list spec_float) := λ w,
  match heap w !! l with
  | Some xs => (w, inr xs)
  | None => (w, inl Stuck)
  end.

(** [l.append(x)] *)
Definition list_append (l : loc) (x : spec_float) : M world unit := λ w,
  match heap w !! l with
  | Some xs => ({| heap := <[l:=xs ++ [x]]> (heap w); stdout := stdout w |}, inr tt)
  | None => (w, inl Stuck)
  end.

(** [print(v)] *)
Definition print (v : pyval) : M world unit := λ w,
  ({| heap := heap w; stdout := stdout w ++ [v] |}, inr tt).

(** [a.astype('float32')]: a new array with its own buffer. *)
Definition astype_float32 (a : ndarray) : M world ndarray :=
  xs ← np_read a;
  buf ← alloc (F64.to_float32 <$> xs);
  mret {| nd_buf := buf; nd_off := 0; nd_len := length xs |}.

(** ** The libraries the forecast tuner calls *)

Definition order : Type := Z * Z * Z.

Class Statsmodels : Type := {
  arima_model : Type;
  arima_results : Type;
  (** [ARIMA(history, order=arima_order)] *)
  ARIMA : list spec_float → order → exn + arima_model;
  (** [model.fit(disp=0)] *)
  ARIMA_fit : arima_model → exn + arima_results;
  (** [model_fit.forecast()[0]], the one-step forecast *)
  ARIMA_forecast : arima_results → exn + spec_float
}.

Class Sklearn : Type := {
  mean_squared_error : list spec_float → list spec_float → exn + spec_float
}.

(** ** [evaluate_arima_model] *)

(** [train_size = int(len(X) * 0.66)], as a function of [len(X)]. *)
Definition train_size (len_X : Z) : exn + Z :=
  F64.to_int (F64.mul (F64.of_int len_X) F64.lit_0_66).

(** The body of [evaluate_arima_model] up to the end of its loop.  It yields
    the held-out view [test] and the list object [predictions]. *)
Definition walk_forward `{Statsmodels} (X : ndarray) (arima_order : order)
  : M world (ndarray * loc) :=
  (* prepare training dataset *)
  size ← lift_exn (train_size (np_len X));
  let train := np_slice X 0 (Some size) in
  let test := np_slice X size None in
  xs ← np_read train;
  history ← alloc xs;
  (* make predictions *)
  predictions ← alloc [];
  for_each (py_range (np_len test)) (λ t,
    h ← list_read history;
    model ← lift_exn (ARIMA h arima_order);
    model_fit ← lift_exn (ARIMA_fit model);
    yhat ← lift_exn (ARIMA_forecast model_fit);
    list_append predictions yhat;;
    x ← np_getitem test t;
    list_append history x);;
  mret (test, predictions).

Definition evaluate_arima_model `{Statsmodels, Sklearn} (X : ndarray) (arima_order : order)
  : M world spec_float :=
  '(test, predictions) ← walk_forward X arima_order;
  (* calculate out of sample error *)
  y_true ← np_read test;
  y_pred ← list_read predictions;
  error ← lift_exn (mean_squared_error y_true y_pred);
  mret error.

(** ** [evaluate_models] *)

(** The local variables that the loops of [evaluate_models] reassign. *)
Record locals : Type := Locals {
  best_score : spec_float;
  best_cfg : option order
}.

Definition py_order (o : order) : pyval :=
  let '(p, d, q) := o in PyTuple [PyInt p; PyInt d; PyInt q].

Definition py_cfg (c : option order) : pyval :=
  match c with Some o => py_order o | None => PyNone end.

(** The [try] statement in the innermost loop. *)
Definition evaluate_order `{Statsmodels, Sklearn} (dataset : ndarray) (order : order)
  : M (world * locals) unit :=
  try_except
    (mse ← lift (evaluate_arima_model dataset order);
     l ← get_locals;
     (if F64.ltb mse (best_score l)
      then assign {| best_score := mse; best_cfg := Some order |}
      else mret tt);;
     line ← lift_exn (py_format "ARIMA%s MSE=%.3f" (PyTuple [py_order order; PyFloat mse]));
     lift (print (PyStr line)))
    (λ _, mret tt).

Definition evaluate_models `{Statsmodels, Sklearn}
    (dataset : ndarray) (p_values d_values q_values : list Z)
  : M (world * locals) unit :=
  dataset ← lift (astype_float32 dataset);
  assign {| best_score := F64.inf; best_cfg := None |};;
  for_each p_values (λ p,
    for_each d_values (λ d,
      for_each q_values (λ q,
        evaluate_order dataset (p, d, q))));;
  l ← get_locals;
  line ← lift_exn (py_format "Best ARIMA%s MSE=%.3f"
                     (PyTuple [py_cfg (best_cfg l); PyFloat (best_score l)]));
  lift (print (PyStr line)).

(** ** The thread-count timer *)

Class XGBoost : Type := {
  (** [model = XGBClassifier(nthread=n); model.fit(X, label_encoded_y)] *)
  XGBClassifier_fit : Z → exn + unit
}.

(** [clock k] is what the [k]-th call of [time.time()] returns: the system's
    wall clock, which the operating system may set back between two calls.
    [results] is the script's list of that name; [printed] is what [print]
    wrote. *)
Record timer_world : Type := TimerWorld {
  clock : nat → spec_float;
  ticks : nat;
  results : list pyval;
  printed : list pyval
}.

(** [time.time()] *)
Definition time_time : M timer_world spec_float := λ w,
  ({| clock := clock w; ticks := S (ticks w); results := results w; printed := printed w |},
   inr (clock w (ticks w))).

(** [results = []] *)
Definition results_reset : M timer_world unit := λ w,
  ({| clock := clock w; ticks := ticks w; results := []; printed := printed w |}, inr tt).

(** [results.append(v)] *)
Definition results_append (v : pyval) : M timer_world unit := λ w,
  ({| clock := clock w; ticks := ticks w; results := results w ++ [v]; printed := printed w |},
   inr tt).

(** [print(n, elapsed)]: under Python 2 this prints the pair. *)
Definition timer_print (v : pyval) : M timer_world unit := λ w,
  ({| clock := clock w; ticks := ticks w; results := results w; printed := printed w ++ [v] |},
   inr tt).

(** The body of the loop: one timed fit with [n] threads. *)
Definition time_fit `{XGBoost} (n : Z) : M timer_world unit :=
  start ← time_time;
  lift_exn (XGBClassifier_fit n);;
  now ← time_time;
  let elapsed := F64.sub now start in
  timer_print (PyTuple [PyInt n; PyFloat elapsed]);;
  results_append (PyFloat elapsed).

(** The loop that evaluates the effect of the number of threads. *)
Definition timing_sweep `{XGBoost} (num_threads : list Z) : M timer_world unit :=
  results_reset;;
  for_each num_threads time_fit.

(** ** Closed forms used in the statements *)

(** [xs[i:j]] on the elements of a sequence. *)
Definition py_slice (xs : list spec_float) (i : Z) (j : option Z) : list spec_float :=
  let len := Z.of_nat (length xs) in
  let lo := slice_index len i in
  let hi := match j with Some j => slice_index len j | None => len end in
  take (Z.to_nat (hi - lo)) (drop (Z.to_nat lo) xs).

(** One model fit and its one-step forecast from the observations [h]. *)
Definition one_step `{Statsmodels} (h : list spec_float) (o : order) : exn + spec_float :=
  model ← ARIMA h o; model_fit ← ARIMA_fit model; ARIMA_forecast model_fit.

(** The forecasts of a walk over [test] that starts from [train]: forecast
    number [t] is made from [train] followed by the first [t] held-out
    observations.  The first failure ends the walk. *)
Definition forecasts `{Statsmodels} (train test : list spec_float) (o : order)
  : exn + list spec_float :=
  mapM (λ t, one_step (train ++ take t test) o) (seq 0 (length test)).

(** What [evaluate_arima_model] computes from the elements [xs] of [X]. *)
Definition arima_mse `{Statsmodels, Sklearn} (xs : list spec_float) (o : order)
  : exn + spec_float :=
  size ← train_size (Z.of_nat (length xs));
  let train := py_slice xs 0 (Some size) in
  let test := py_slice xs size None in
  preds ← forecasts train test o;
  mean_squared_error test preds.

(** The orders in the sequence the three nested loops visit them. *)
Definition grid (p_values d_values q_values : list Z) : list order :=
  p ← p_values; d ← d_values; q ← q_values; [(p, d, q)].

(** [l] names the first-seen minimiser of [score] over [cfgs]. *)
Definition first_seen_min (score : order → exn + spec_float) (cfgs : list order)
    (l : locals) : Prop :=
  (∀ c s, c ∈ cfgs → score c = inr s → F64.ltb s (best_score l) = false) ∧
  match best_cfg l with
  | Some c =>
      ∃ i : nat, cfgs !! i = Some c ∧ score c = inr (best_score l) ∧
        ∀ (j : nat) c' s, j < i → cfgs !! j = Some c' → score c' = inr s →
          F64.leb s (best_score l) = false
  | None => best_score l = F64.inf
  end.

(** The text of an order, as [%s] prints the tuple. *)
Definition order_str (o : order) : string :=
  let '(p, d, q) := o in
  "(" +:+ String.concat ", " [pretty p; pretty d; pretty q] +:+ ")".

(** The line printed for a successfully evaluated order. *)
Definition progress_line (o : order) (mse : spec_float) : pyval :=
  PyStr ("ARIMA" +:+ order_str o +:+ " MSE=" +:+ F64.fixed3 mse).

Definition progress_lines (score : order → exn + spec_float) (cfgs : list order) : list pyval :=
  omap (λ o, match score o with inr mse => Some (progress_line o mse) | inl _ => None end) cfgs.

(** The summary line. *)
Definition summary_line (l : locals) : pyval :=
  PyStr ("Best ARIMA" +:+
         match best_cfg l with Some o => order_str o | None => "None" end +:+
         " MSE=" +:+ F64.fixed3 (best_score l)).

(** The accumulator after one order, and after a list of orders. *)
Definition update (score : order → exn + spec_float) (l : locals) (o : order) : locals :=
  match score o with
  | inr mse => if F64.ltb mse (best_score l)
               then {| best_score := mse; best_cfg := Some o |} else l
  | inl _ => l
  end.

Definition search (score : order → exn + spec_float) (cfgs : list order) (l : locals) : locals :=
  foldl (update score) l cfgs.

(** The duration measured around the [i]-th fit of a sweep that starts at
    tick [k]. *)
Definition duration (c : nat → spec_float) (k i : nat) : spec_float :=
  F64.sub (c (k + 2 * i + 1)) (c (k + 2 * i)).

(** ** Library stand-ins for the examples *)

(** A forecaster that repeats the observation [p + 1] steps back.  It
    rejects [d > 2]; its fit fails when [p + q > 2], and also when [q = 2] and
    the history has 25 observations. *)
Definition persistence : Statsmodels := {|
  arima_model := list spec_float * order;
  arima_results := spec_float;
  ARIMA h o := let '(p, d, q) := o in
               if (2 <? d)%Z then inl ValueError else inr (h, o);
  ARIMA_fit m := let '(h, (p, d, q)) := m in
                 if (2 <? p + q)%Z || ((q =? 2)%Z && (length h =? 25))
                 then inl LinAlgError
                 else match reverse h !! Z.to_nat p with
                      | Some x => inr x
                      | None => inl ValueError
                      end;
  ARIMA_forecast r := inr r
|}.

(** A forecaster whose optimiser never converges. *)
Definition never_converges : Statsmodels := {|
  arima_model := unit;
  arima_results := unit;
  ARIMA h o := inr tt;
  ARIMA_fit m := inl LinAlgError;
  ARIMA_forecast r := inl LinAlgError
|}.

(** The mean of the squared differences, summed from left to right. *)
Definition plain_mse : Sklearn := {|
  mean_squared_error y_true y_pred :=
    if decide (length y_true = length y_pred ∧ 0 < length y_true)
    then inr (F64.div
                (foldl F64.add (S754_zero false)
                   (zip_with (λ a b, F64.mul (F64.sub a b) (F64.sub a b)) y_true y_pred))
                (F64.of_int (Z.of_nat (length y_true))))
    else inl ValueError
|}.

Definition always_fits : XGBoost := {| XGBClassifier_fit n := inr tt |}.

(** A series of 36 observations for the examples. *)
Definition sample_series : list spec_float :=
  (λ n, F64.div (F64.of_int n) (F64.of_int 10)) <$>
  [2660; 1459; 1831; 1193; 1803; 1685; 2318; 2245; 1929; 1228; 3365; 1857;
   1941; 1496; 2103; 2733; 1914; 2875; 2264; 3036; 2899; 4217; 2643; 3423;
   3396; 4401; 3156; 4393; 4013; 4376; 5759; 4076; 6820; 4753; 5813; 6469]%Z.

(** A store that holds the series as the buffer of one array. *)
Definition sample_world : world :=
  {| heap := {[ 1%positive := sample_series ]}; stdout := [] |}.

Definition sample_array : ndarray := {| nd_buf := 1%positive; nd_off := 0; nd_len := 36 |}.

Definition sample_locals : locals := {| best_score := S754_nan; best_cfg := None |}.

(** A clock that advances, and one that is set back after its first reading. *)
Definition steady_clock (k : nat) : spec_float := F64.of_int (Z.of_nat (k * k)).

Definition stepped_back_clock (k : nat) : spec_float :=
  if k =? 0 then F64.of_int 10 else F64.of_int 5.

Definition sample_timer (c : nat → spec_float) : timer_world :=
  {| clock := c; ticks := 0; results := [PyNone]; printed := [] |}.

(** The errors that the notebook records for its shampoo-sales run, in
    thousandths; the orders that are absent from the record raised. *)
Definition recorded_run : list (order * Z) :=
  [((0, 0, 0), 52425268); ((0, 0, 1), 38145259); ((0, 0, 2), 23989598);
   ((0, 1, 0), 18003173); ((0, 1, 1), 9558166); ((0, 2, 0), 67339808);
   ((0, 2, 1), 18321891); ((1, 0, 0), 23112826); ((1, 1, 0), 7121367);
   ((1, 1, 1), 7003683); ((1, 2, 0), 18608016); ((2, 1, 0), 5689931);
   ((2, 1, 1), 7759704); ((2, 2, 0), 9860940); ((4, 1, 0), 6649594);
   ((4, 1, 1), 6796295); ((4, 2, 0), 7596329); ((4, 2, 1), 4694872);
   ((6, 1, 0), 6810082); ((6, 2, 0), 6261123); ((8, 1, 0), 6579580)]%Z.

Definition recorded_score (o : order) : exn + spec_float :=
  match list_find (λ r, r.1 = o) recorded_run with
  | Some (_, (_, milli)) => inr (F64.div (F64.of_int milli) (F64.of_int 1000))
  | None => inl (OtherError "not recorded")
  end.

(** ** The date parser of the shampoo-sales script *)

(** What [datetime.strptime] builds from a year and a month: the first day
    of that month, at midnight. *)
Record datetime : Type := Datetime {
  dt_year : Z;
  dt_month : Z;
  dt_day : Z;
  dt_hour : Z;
  dt_minute : Z;
  dt_second : Z
}.

(** The value of a character in [0-9], which is what [\d] matches in a
    byte string. *)
Definition digit_of (c : ascii) : option Z :=
  let n := nat_of_ascii c in
  if (48 <=? n) && (n <=? 57) then Some (Z.of_nat n - 48)%Z else None.

(** The directive [%m]: the alternatives [1[0-2]], [0[1-9]] and [[1-9]],
    tried in this order at the head of [s].  The result is the month and
    the text that follows it. *)
Definition match_month (s : string) : option (Z * string) :=
  match s with
  | EmptyString => None
  | String c1 rest1 =>
      match digit_of c1 with
      | None => None
      | Some d1 =>
          let two_digits :=
            match rest1 with
            | EmptyString => None
            | String c2 rest2 =>
                match digit_of c2 with
                | None => None
                | Some d2 =>
                    if (d1 =? 1)%Z && (d2 <=? 2)%Z then Some ((10 + d2)%Z, rest2)
                    else if (d1 =? 0)%Z && (1 <=? d2)%Z then Some (d2, rest2)
                    else None
                end
            end in
          match two_digits with
          | Some r => Some r
          | None => if (1 <=? d1)%Z then Some (d1, rest1) else None
          end
      end
  end.

(** [datetime.strptime(s, '%Y-%m')]: four digits, a hyphen, a month, and
    nothing after it.  Text that does not match, or that goes on after the
    month, raises [ValueError]; so does the year 0, which [datetime] rejects. *)
Definition strptime_Y_m (s : string) : exn + datetime :=
  match s with
  | String c1 (String c2 (String c3 (String c4 (String c5 rest)))) =>
      match digit_of c1, digit_of c2, digit_of c3, digit_of c4 with
      | Some d1, Some d2, Some d3, Some d4 =>
          if Ascii.eqb c5 "-"
          then match match_month rest with
               | Some (month, EmptyString) =>
                   let year := (1000 * d1 + 100 * d2 + 10 * d3 + d4)%Z in
                   if (1 <=? year)%Z
                   then inr {| dt_year := year; dt_month := month; dt_day := 1;
                               dt_hour := 0; dt_minute := 0; dt_second := 0 |}
                   else inl ValueError
               | _ => inl ValueError
               end
          else inl ValueError
      | _, _, _, _ => inl ValueError
      end
  | _ => inl ValueError
  end.

Definition parser (x : string) : exn + datetime :=
  strptime_Y_m ("190" +:+ x).

(** The two spellings of a month that [%m] reads: with and without a
    leading zero. *)
Definition month_text (m : Z) (padded : bool) : string :=
  if padded && (m <? 10)%Z then "0" +:+ pretty m else pretty m.

(** ** The data preparation of the Otto scripts *)

(** A two-dimensional array: [n_cols] is the second component of its shape,
    which an array has even when it holds no row. *)
Record matrix (A : Type) : Type := Matrix {
  n_cols : nat;
  m_rows : list (list A)
}.
Arguments Matrix {A} _ _.
Arguments n_cols {A} _.
Arguments m_rows {A} _.

(** Every row has [n_cols] elements. *)
Definition matrix_wf {A} (m : matrix A) : Prop :=
  Forall (λ r, length r = n_cols m) (m_rows m).

(** [m[:, i:j]]: a slice never raises, its bounds are clipped. *)
Definition matrix_columns {A} (m : matrix A) (i j : Z) : matrix A :=
  let c := Z.of_nat (n_cols m) in
  let lo := slice_index c i in
  let hi := slice_index c j in
  {| n_cols := Z.to_nat (hi - lo);
     m_rows := (λ r, take (Z.to_nat (hi - lo)) (drop (Z.to_nat lo) r)) <$> m_rows m |}.

(** [m[:, k]]: an index outside the second axis raises [IndexError]. *)
Definition matrix_column {A} (m : matrix A) (k : Z) : exn + list A :=
  let c := Z.of_nat (n_cols m) in
  let i := if (k <? 0)%Z then (k + c)%Z else k in
  if (0 <=? i)%Z && (i <? c)%Z
  then mapM (λ r, match r !! Z.to_nat i with Some x => inr x | None => inl Stuck end)
            (m_rows m)
  else inl IndexError.

(** [X = dataset[:,0:94]; y = dataset[:,94]] *)
Definition split_X_y {A} (dataset : matrix A) : exn + (matrix A * list A) :=
  let X := matrix_columns dataset 0 94 in
  y ← matrix_column dataset 94;
  mret (X, y).

(** ** The timing of cross validation *)

Class ModelSelection : Type := {
  (** [cross_val_score(XGBClassifier(nthread=nthread), X, label_encoded_y,
      cv=kfold, scoring='neg_log_loss', n_jobs=n_jobs)] *)
  cross_val_score : Z → Z → exn + list spec_float
}.

Fixpoint zeros (k : nat) : string :=
  match k with
  | O => EmptyString
  | S k' => String "0" (zeros k')
  end.

(** ['%.*f' % (digits, x)]: [digits] decimals, the exact value rounded to
    the nearest, ties to even. *)
Definition fixed_point (digits : nat) (x : spec_float) : string :=
  match x with
  | S754_nan => "nan"
  | S754_infinity s => F64.sign_str s +:+ "inf"
  | S754_zero s =>
      F64.sign_str s +:+ "0" +:+ (if digits =? 0 then EmptyString else "." +:+ zeros digits)
  | S754_finite s m e =>
      let scale := (10 ^ Z.of_nat digits)%Z in
      let n := if (0 <=? e)%Z then (Z.pos m * 2 ^ e * scale)%Z
               else F64.round_half_even (Z.pos m * scale) (2 ^ (- e)) in
      let frac := pretty (n mod scale)%Z in
      F64.sign_str s +:+ pretty (n / scale)%Z +:+
      (if digits =? 0 then EmptyString
       else "." +:+ zeros (digits - String.length frac) +:+ frac)
  end.

(** [fmt % x] for a format whose directives are [%f] (six decimals) and
    [%%]. *)
Fixpoint py_format_f (fmt : string) (args : list pyval) : exn + string :=
  match fmt with
  | EmptyString => match args with [] => inr EmptyString | _ => inl TypeError end
  | String "%" (String "f" rest) =>
      match args with
      | [] => inl TypeError
      | a :: args' => x ← py_float a; r ← py_format_f rest args'; mret (fixed_point 6 x +:+ r)
      end
  | String "%" (String "%" rest) => r ← py_format_f rest args; mret (String "%" r)
  | String "%" _ => inl Stuck
  | String c rest => r ← py_format_f rest args; mret (String c r)
  end.

(** [results = v] *)
Definition results_assign (v : list pyval) : M timer_world unit := λ w,
  ({| clock := clock w; ticks := ticks w; results := v; printed := printed w |}, inr tt).

(** One of the three timed blocks: the label is the text before [%f]. *)
Definition timed_cross_val `{ModelSelection} (fmt : string) (nthread n_jobs : Z)
  : M timer_world unit :=
  start ← time_time;
  scores ← lift_exn (cross_val_score nthread n_jobs);
  results_assign (PyFloat <$> scores);;
  now ← time_time;
  let elapsed := F64.sub now start in
  line ← lift_exn (py_format_f fmt [PyFloat elapsed]);
  timer_print (PyStr line).

(** The three measurements of the cross-validation script. *)
Definition parallel_cross_validation `{ModelSelection} : M timer_world unit :=
  (* Single Thread XGBoost, Parallel Thread CV *)
  timed_cross_val "Single Thread XGBoost, Parallel Thread CV: %f" 1 (-1);;
  (* Parallel Thread XGBoost, Single Thread CV *)
  timed_cross_val "Parallel Thread XGBoost, Single Thread CV: %f" (-1) 1;;
  (* Parallel Thread XGBoost and CV *)
  timed_cross_val "Parallel Thread XGBoost and CV: %f" (-1) (-1).

(** ** Closed forms for the further properties *)

(** The accumulator of [evaluate_models] before its loops. *)
Definition start_locals : locals := {| best_score := F64.inf; best_cfg := None |}.

(** Of two accumulators, the second when its score is strictly below the
    first's, else the first. *)
Definition better (l1 l2 : locals) : locals :=
  if F64.ltb (best_score l2) (best_score l1) then l2 else l1.

(** The orders whose evaluation returns an error value. *)
Definition successful (score : order → exn + spec_float) (cfgs : list order) : list order :=
  omap (λ o, match score o with inr _ => Some o | inl _ => None end) cfgs.

(** How many leading outcomes are normal returns. *)
Fixpoint completed {A} (outcomes : list (exn + A)) : nat :=
  match outcomes with
  | inr _ :: rest => S (completed rest)
  | _ => 0
  end.

(** The texts before [%f] in the three [print] statements of the
    cross-validation script, and the three lines when the first clock reading
    is number [k]. *)
Definition cv_labels : list string :=
  ["Single Thread XGBoost, Parallel Thread CV: ";
   "Parallel Thread XGBoost, Single Thread CV: ";
   "Parallel Thread XGBoost and CV: "].

Definition cv_lines (c : nat → spec_float) (k : nat) : list pyval :=
  zip_with (λ label i, PyStr (label +:+ fixed_point 6 (duration c k i))) cv_labels (seq 0 3).

(** ** Further stand-ins for the examples *)

(** A classifier whose fit fails for more than [k] threads. *)
Definition fits_up_to (k : Z) : XGBoost := {|
  XGBClassifier_fit n := if (k <? n)%Z then inl (OtherError "XGBoostError") else inr tt
|}.

(** A cross validation that fails when it runs on a single job. *)
Definition single_job_fails : ModelSelection := {|
  cross_val_score nthread n_jobs :=
    if (n_jobs =? 1)%Z then inl (OtherError "JoblibError") else inr [F64.of_int (-1)]
|}.

(** The sample series with another last observation. *)
Definition revised_series : list spec_float := take 35 sample_series ++ [F64.of_int 0].

Definition revised_world : world :=
  {| heap := {[ 1%positive := revised_series ]}; stdout := [] |}.

(** A series of one observation. *)
Definition single_world : world :=
  {| heap := {[ 1%positive := [F64.of_int 5] ]}; stdout := [] |}.

Definition single_array : ndarray := {| nd_buf := 1%positive; nd_off := 0; nd_len := 1 |}.

(** Two series of doubles that differ, and that binary32 cannot tell apart:
    16777217 is [2 ^ 24 + 1]. *)
Definition fine_series : list spec_float := F64.of_int <$> [16777217; 2; 3; 5; 8; 13]%Z.

Definition coarse_series : list spec_float := F64.of_int <$> [16777216; 2; 3; 5; 8; 13]%Z.

Definition fine_world : world := {| heap := {[ 1%positive := fine_series ]}; stdout := [] |}.

Definition coarse_world : world := {| heap := {[ 1%positive := coarse_series ]}; stdout := [] |}.

Definition six_array : ndarray := {| nd_buf := 1%positive; nd_off := 0; nd_len := 6 |}.

(** A table of two rows and 95 columns. *)
Definition sample_matrix : matrix Z :=
  {| n_cols := 95; m_rows := [Z.of_nat <$> seq 0 95; Z.of_nat <$> seq 100 95] |}.

(** * Part II: properties *)

(** ** The rounding machinery of [SpecFloat] *)

Lemma digits2_pos_bounds (p : positive) :
  (2 ^ (Z.pos (digits2_pos p) - 1) ≤ Z.pos p < 2 ^ Z.pos (digits2_pos p))%Z.
Proof.
  induction p as [p IH|p IH|]; simpl digits2_pos.
  - rewrite Pos2Z.inj_succ.
    replace (Z.succ (Z.pos (digits2_pos p)) - 1)%Z with (Z.succ (Z.pos (digits2_pos p) - 1)) by lia.
    rewrite !Z.pow_succ_r by lia. lia.
  - rewrite Pos2Z.inj_succ.
    replace (Z.succ (Z.pos (digits2_pos p)) - 1)%Z with (Z.succ (Z.pos (digits2_pos p) - 1)) by lia.
    rewrite !Z.pow_succ_r by lia. lia.
  - simpl. lia.
Qed.

Lemma digits2_pos_unique (p : positive) (k : Z) :
  (2 ^ (k - 1) ≤ Z.pos p < 2 ^ k)%Z → Z.pos (digits2_pos p) = k.
Proof.
  intros [Hlo Hhi].
  pose proof (digits2_pos_bounds p) as [Hlo' Hhi'].
  destruct (Z.lt_trichotomy (Z.pos (digits2_pos p)) k) as [Hlt|[Heq|Hgt]]; [|exact Heq|].
  - assert (2 ^ Z.pos (digits2_pos p) ≤ 2 ^ (k - 1))%Z by (apply Z.pow_le_mono_r; lia). lia.
  - assert (0 < k)%Z.
    { destruct (Z.le_gt_cases k 0) as [Hk|Hk]; [|exact Hk].
      assert (2 ^ k ≤ 2 ^ 0)%Z by (apply Z.pow_le_mono_r; lia). simpl in *. lia. }
    assert (2 ^ k ≤ 2 ^ (Z.pos (digits2_pos p) - 1))%Z by (apply Z.pow_le_mono_r; lia). lia.
Qed.

Lemma shr_1_m (mrs : shr_record) :
  (0 ≤ shr_m mrs)%Z →
  shr_m (shr_1 mrs) = (shr_m mrs / 2)%Z ∧ shr_r (shr_1 mrs) = Z.odd (shr_m mrs).
Proof.
  destruct mrs as [m r s]; simpl. intros Hm.
  destruct m as [|[p|p|]|p]; simpl; try lia; split; try reflexivity.
  - apply Z.div_unique with (r := 1%Z); lia.
  - apply Z.div_unique with (r := 0%Z); lia.
Qed.

(** Shifting right by [p] bits divides by [2 ^ p]; the round bit is the last
    bit shifted out. *)
Lemma iter_shr_1 (p : positive) : ∀ mrs : shr_record,
  (0 ≤ shr_m mrs)%Z →
  shr_m (SpecFloat.iter_pos shr_1 p mrs) = (shr_m mrs / 2 ^ Z.pos p)%Z ∧
  shr_r (SpecFloat.iter_pos shr_1 p mrs) = Z.odd (shr_m mrs / 2 ^ (Z.pos p - 1)).
Proof.
  induction p as [p IH|p IH|]; intros mrs Hm; simpl SpecFloat.iter_pos.
  - destruct (shr_1_m mrs Hm) as [H1 _].
    assert (H1pos : (0 ≤ shr_m (shr_1 mrs))%Z) by (rewrite H1; apply Z.div_pos; lia).
    destruct (IH _ H1pos) as [H2 _].
    assert (H2pos : (0 ≤ shr_m (SpecFloat.iter_pos shr_1 p (shr_1 mrs)))%Z)
      by (rewrite H2; apply Z.div_pos; lia).
    destruct (IH _ H2pos) as [H3 H3r].
    rewrite H3, H3r, H2, H1.
    rewrite !Z.div_div by lia.
    replace (Z.pos p~1) with (1 + Z.pos p + Z.pos p)%Z by lia.
    replace (1 + Z.pos p + Z.pos p - 1)%Z with (1 + Z.pos p + (Z.pos p - 1))%Z by lia.
    rewrite !Z.pow_add_r by lia. rewrite !Z.mul_assoc. split; reflexivity.
  - destruct (IH _ Hm) as [H2 _].
    assert (H2pos : (0 ≤ shr_m (SpecFloat.iter_pos shr_1 p mrs))%Z)
      by (rewrite H2; apply Z.div_pos; lia).
    destruct (IH _ H2pos) as [H3 H3r].
    rewrite H3, H3r, H2.
    rewrite !Z.div_div by lia.
    replace (Z.pos p~0) with (Z.pos p + Z.pos p)%Z by lia.
    replace (Z.pos p + Z.pos p - 1)%Z with (Z.pos p + (Z.pos p - 1))%Z by lia.
    rewrite !Z.pow_add_r by lia. split; reflexivity.
  - destruct (shr_1_m mrs Hm) as [H1 H1r]. rewrite H1, H1r. simpl.
    rewrite Z.div_1_r. split; reflexivity.
Qed.

(** The literal [0.66] is a canonical binary64 number, it is the correctly
    rounded quotient 66/100, and it lies 28/100 of a unit in the last place
    above 66/100. *)
Lemma lit_0_66_nearest :
  valid_binary 53 1024 F64.lit_0_66 = true ∧
  F64.lit_0_66 = F64.div (F64.of_int 66) (F64.of_int 100) ∧
  (100 * 5944751508129055 = 66 * 2 ^ 53 + 28)%Z.
Proof. repeat split. Qed.

Lemma binary_round_aux_canonical (s : bool) (m : positive) (e : Z) :
  (2 ^ 52 ≤ Z.pos m < 2 ^ 53)%Z → (-1074 ≤ e ≤ 971)%Z →
  binary_round_aux 53 1024 s (Z.pos m) e loc_Exact = S754_finite s m e.
Proof.
  intros Hm He.
  assert (Hd : Z.pos (digits2_pos m) = 53%Z) by (apply digits2_pos_unique; exact Hm).
  unfold binary_round_aux, shr_fexp. simpl Zdigits2. rewrite Hd.
  unfold fexp, emin.
  replace (Z.max (53 + e - 53) (3 - 1024 - 53) - e)%Z with 0%Z by lia.
  simpl. rewrite Hd.
  replace (Z.max (53 + e - 53) (3 - 1024 - 53) - e)%Z with 0%Z by lia.
  simpl.
  destruct (Z.leb_spec e (1024 - 53)); [reflexivity | lia].
Qed.


Lemma renormalize_spec (s : bool) (r e : Z) :
  (4503599627370496 ≤ r ≤ 9007199254740992)%Z → (-1074 ≤ e ≤ 970)%Z →
  ∃ (m : positive) (e' : Z),
    (let '(mrs, e'') := shr_fexp 53 1024 r e loc_Exact in
     match shr_m mrs with
     | 0%Z => S754_zero s
     | Z.pos m0 => if (e'' <=? 1024 - 53)%Z then S754_finite s m0 e'' else S754_infinity s
     | Z.neg _ => S754_nan
     end) = S754_finite s m e' ∧
    ((e' = e ∧ Z.pos m = r) ∨
     (e' = (e + 1)%Z ∧ r = 9007199254740992%Z ∧ Z.pos m = 4503599627370496%Z)).
Proof.
  intros Hr He.
  destruct (Z.eq_dec r 9007199254740992%Z) as [Heq|Hne].
  - subst r. exists 4503599627370496%positive, (e + 1)%Z.
    unfold shr_fexp, fexp, emin.
    change (Zdigits2 9007199254740992) with 54%Z.
    replace (Z.max (54 + e - 53) (3 - 1024 - 53) - e)%Z with 1%Z by lia.
    simpl. destruct (Z.leb_spec (e + 1) (1024 - 53)); [|lia].
    split; [reflexivity|]. right. repeat split; reflexivity.
  - destruct r as [|m|m]; try lia.
    exists m, e.
    assert (Hd : Z.pos (digits2_pos m) = 53%Z).
    { apply digits2_pos_unique.
      change (2 ^ (53 - 1))%Z with 4503599627370496%Z.
      change (2 ^ 53)%Z with 9007199254740992%Z. lia. }
    unfold shr_fexp, fexp, emin. simpl Zdigits2. rewrite Hd.
    replace (Z.max (53 + e - 53) (3 - 1024 - 53) - e)%Z with 0%Z by lia.
    simpl. destruct (Z.leb_spec e (1024 - 53)); [|lia].
    split; [reflexivity|]. left. split; reflexivity.
Qed.

(** Rounding a mantissa of more than 53 bits: the result is the truncated
    mantissa [P / 2 ^ sh], or its successor when the round bit is set. *)
Lemma binary_round_aux_shr (s : bool) (P : positive) (E sh : Z) :
  sh = (Z.pos (digits2_pos P) - 53)%Z → (0 < sh)%Z →
  (-1074 ≤ E + sh ≤ 970)%Z →
  ∃ (m : positive) (e : Z),
    binary_round_aux 53 1024 s (Z.pos P) E loc_Exact = S754_finite s m e ∧
    ((e = (E + sh)%Z ∧
      (Z.pos m = (Z.pos P / 2 ^ sh)%Z ∨
       (Z.odd (Z.pos P / 2 ^ (sh - 1)) = true ∧ Z.pos m = (Z.pos P / 2 ^ sh + 1)%Z))) ∨
     (e = (E + sh + 1)%Z ∧ Z.odd (Z.pos P / 2 ^ (sh - 1)) = true ∧
      (Z.pos P / 2 ^ sh + 1 = 9007199254740992)%Z ∧ Z.pos m = 4503599627370496%Z)).
Proof.
  intros Hsh Hpos He.
  pose proof (digits2_pos_bounds P) as [Plo Phi].
  assert (Hq : (4503599627370496 ≤ Z.pos P / 2 ^ sh < 9007199254740992)%Z).
  { change 4503599627370496%Z with (2 ^ 52)%Z.
    change 9007199254740992%Z with (2 ^ 53)%Z.
    replace (Z.pos (digits2_pos P) - 1)%Z with (sh + 52)%Z in Plo by lia.
    replace (Z.pos (digits2_pos P)) with (sh + 53)%Z in Phi by lia.
    rewrite Z.pow_add_r in Plo, Phi by lia.
    split; [apply Z.div_le_lower_bound | apply Z.div_lt_upper_bound]; lia. }
  unfold binary_round_aux.
  unfold shr_fexp at 1. simpl Zdigits2. unfold fexp, emin.
  replace (Z.max (Z.pos (digits2_pos P) + E - 53) (3 - 1024 - 53) - E)%Z with sh by lia.
  destruct sh as [|shp|shp] eqn:Esh; try lia.
  unfold shr.
  destruct (iter_shr_1 shp (shr_record_of_loc (Z.pos P) loc_Exact)) as [Hm Hrb];
    [simpl; lia|].
  destruct (SpecFloat.iter_pos shr_1 shp (shr_record_of_loc (Z.pos P) loc_Exact))
    as [q rb st].
  simpl shr_m in Hm, Hrb. simpl shr_r in Hrb. simpl shr_m. subst q.
  set (q := (Z.pos P / 2 ^ Z.pos shp)%Z) in *.
  set (r := round_nearest_even q (loc_of_shr_record {| shr_m := q; shr_r := rb; shr_s := st |})).
  assert (Hr : r = q ∨ (rb = true ∧ r = (q + 1)%Z)).
  { unfold r. destruct rb, st; simpl; auto. destruct (Z.even q); auto. }
  destruct (renormalize_spec s r (E + Z.pos shp)) as (m & e' & Heq & Hcase); [lia|lia|].
  exists m, e'. split; [exact Heq|].
  rewrite <- Hrb.
  destruct Hcase as [[-> Hm]|(-> & Hr53 & Hm)].
  - left. split; [reflexivity|]. destruct Hr as [Hr|[Hrb' Hr]]; [left|right]; [|split; [exact Hrb'|]]; lia.
  - right. destruct Hr as [Hr|[Hrb' Hr]]; [lia|]. repeat split; [exact Hrb'|lia|exact Hm].
Qed.

Lemma iter_xO_pow (d m : positive) :
  Z.pos (Pos.iter xO m d) = (Z.pos m * 2 ^ Z.pos d)%Z.
Proof.
  induction d as [|d IH] using Pos.peano_ind.
  - simpl. lia.
  - rewrite Pos.iter_succ, Pos2Z.inj_xO, IH, Pos2Z.inj_succ, Z.pow_succ_r by lia. lia.
Qed.

(** [float(n)] is exact below [2 ^ 53]. *)
Lemma of_int_pos (p : positive) :
  (Z.pos p < 2 ^ 53)%Z →
  ∃ (mx : positive) (a : Z),
    F64.of_int (Z.pos p) = S754_finite false mx (- a) ∧
    (0 ≤ a ≤ 52)%Z ∧ Z.pos mx = (Z.pos p * 2 ^ a)%Z ∧
    (2 ^ 52 ≤ Z.pos mx < 2 ^ 53)%Z.
Proof.
  intros Hp.
  pose proof (digits2_pos_bounds p) as [Plo Phi].
  assert (Hd : (Z.pos (digits2_pos p) ≤ 53)%Z).
  { destruct (Z.le_gt_cases (Z.pos (digits2_pos p)) 53) as [H|H]; [exact H|].
    assert (2 ^ 53 ≤ 2 ^ (Z.pos (digits2_pos p) - 1))%Z by (apply Z.pow_le_mono_r; lia). lia. }
  unfold F64.of_int, binary_normalize, binary_round, shl_align, fexp, emin, F64.prec, F64.emax.
  replace (Z.max (Z.pos (digits2_pos p) + 0 - 53) (3 - 1024 - 53) - 0)%Z
    with (Z.pos (digits2_pos p) - 53)%Z by lia.
  replace (Z.max (Z.pos (digits2_pos p) + 0 - 53) (3 - 1024 - 53))%Z
    with (Z.pos (digits2_pos p) - 53)%Z by lia.
  destruct (Z.pos (digits2_pos p) - 53)%Z as [|d|d] eqn:Ed; try lia.
  - assert (Hm : (2 ^ 52 ≤ Z.pos p < 2 ^ 53)%Z).
    { replace (Z.pos (digits2_pos p) - 1)%Z with 52%Z in Plo by lia. lia. }
    exists p, 0%Z.
    split; [apply binary_round_aux_canonical; [exact Hm|lia]|].
    split; [lia|]. split; [simpl; lia|exact Hm].
  - assert (Hm : (2 ^ 52 ≤ Z.pos (Pos.iter xO p d) < 2 ^ 53)%Z).
    { rewrite iter_xO_pow.
      assert (H52 : (2 ^ 52 = 2 ^ (Z.pos (digits2_pos p) - 1) * 2 ^ Z.pos d)%Z)
        by (rewrite <- Z.pow_add_r by lia; f_equal; lia).
      assert (H53 : (2 ^ 53 = 2 ^ Z.pos (digits2_pos p) * 2 ^ Z.pos d)%Z)
        by (rewrite <- Z.pow_add_r by lia; f_equal; lia).
      rewrite H52, H53.
      assert (0 < 2 ^ Z.pos d)%Z by (apply Z.pow_pos_nonneg; lia). nia. }
    exists (Pos.iter xO p d), (Z.pos d).
    split; [apply binary_round_aux_canonical; [exact Hm|lia]|].
    split; [lia|]. split; [apply iter_xO_pow|exact Hm].
Qed.

Section Arith.
Local Open Scope Z_scope.
(** The arithmetic at the heart of the split size: [q] is the truncated
    mantissa, [k] the exact floor, [T] and [S] the powers of two by which the
    result and the product are scaled. *)
Lemma split_arith (p A S T q k mx P : Z) :
  0 < p ≤ 213238618720193 → 0 < A → 0 < S → 64 ≤ T →
  S * T = A * 9007199254740992 →
  mx = p * A → P = mx * 5944751508129055 →
  q * S ≤ P < (q + 1) * S →
  100 * k ≤ 66 * p ≤ 100 * k + 98 →
  k * T ≤ q ∧ q < (k + 1) * T ∧ ((2 * q + 1) * S ≤ 2 * P → q + 1 < (k + 1) * T).
Proof.
  intros Hp HA HS HT HST Hmx HP Hq Hk.
  assert (HkA : 100 * (k * A) ≤ 66 * (p * A)) by nia.
  assert (HkA' : 66 * (p * A) ≤ (100 * k + 98) * A) by nia.
  assert (H100P : 100 * P = 66 * 9007199254740992 * (p * A) + 28 * (p * A)) by lia.
  assert (HpA : p * A ≤ 213238618720193 * A) by nia.
  split; [|split].
  - destruct (Z.le_gt_cases (k * T) q) as [H|H]; [exact H|exfalso].
    assert ((q + 1) * S ≤ k * T * S) by nia.
    assert (k * T * S = k * A * 9007199254740992) by nia.
    nia.
  - destruct (Z.lt_ge_cases q ((k + 1) * T)) as [H|H]; [exact H|exfalso].
    assert ((k + 1) * T * S ≤ q * S) by nia.
    assert ((k + 1) * T * S = (k + 1) * A * 9007199254740992) by nia.
    nia.
  - intros Hrb.
    destruct (Z.lt_ge_cases (q + 1) ((k + 1) * T)) as [H|H]; [exact H|exfalso].
    assert ((k + 1) * T * S ≤ (q + 1) * S) by nia.
    assert ((k + 1) * T * S = (k + 1) * A * 9007199254740992) by nia.
    assert (64 * S ≤ A * 9007199254740992) by nia.
    nia.
Qed.

End Arith.

Lemma odd_half_bound (P sh : Z) :
  (0 < P)%Z → (0 < sh)%Z → Z.odd (P / 2 ^ (sh - 1)) = true →
  ((2 * (P / 2 ^ sh) + 1) * 2 ^ sh ≤ 2 * P)%Z.
Proof.
  intros HP Hsh Hodd.
  assert (HS : (2 ^ sh = 2 ^ (sh - 1) * 2)%Z).
  { replace sh with (Z.succ (sh - 1)) at 1 by lia. rewrite Z.pow_succ_r by lia. lia. }
  assert (HS' : (0 < 2 ^ (sh - 1))%Z) by (apply Z.pow_pos_nonneg; lia).
  rewrite HS. rewrite <- Z.div_div by lia.
  set (h := (P / 2 ^ (sh - 1))%Z) in *.
  assert (Hh : (h = 2 * (h / 2) + 1)%Z).
  { pose proof (Z.div_mod h 2 ltac:(lia)) as Hdm. rewrite Zmod_odd, Hodd in Hdm. exact Hdm. }
  assert (Hle : (2 ^ (sh - 1) * h ≤ P)%Z) by (apply Z.mul_div_le; lia).
  nia.
Qed.

Lemma div_between (m T k : Z) :
  (0 < T)%Z → (k * T ≤ m < (k + 1) * T)%Z → (m / T)%Z = k.
Proof.
  intros HT [Hlo Hhi]. symmetry. apply Z.div_unique with (r := (m - k * T)%Z); lia.
Qed.

(** [int(n * 0.66)] is the exact floor of [66 n / 100] for every length
    below 213238618720203: the product is below [2 ^ 47] up to
    213238618720193, where rounding moves it by less than the distance to the
    next integer; the nine lengths that remain are computed. *)
Lemma train_size_floor (n : Z) :
  (0 ≤ n < 213238618720203)%Z → train_size n = inr (66 * n / 100)%Z.
Proof.
  intros Hn.
  destruct (Z_le_gt_dec n 213238618720193) as [Hle|Hgt].
  2:{ assert (Hcases : n = 213238618720194%Z ∨ n = 213238618720195%Z ∨
                       n = 213238618720196%Z ∨ n = 213238618720197%Z ∨
                       n = 213238618720198%Z ∨ n = 213238618720199%Z ∨
                       n = 213238618720200%Z ∨ n = 213238618720201%Z ∨
                       n = 213238618720202%Z) by lia.
      repeat (destruct Hcases as [->|Hcases]; [vm_compute; reflexivity|]).
      subst n. vm_compute. reflexivity. }
  destruct n as [|p|p]; [reflexivity| |lia].
  destruct (of_int_pos p) as (mx & a & Hof & Ha & Hmx & Hmxr).
  { change (2 ^ 53)%Z with 9007199254740992%Z. lia. }
  unfold train_size, F64.mul. rewrite Hof. unfold F64.lit_0_66, SFmul, F64.prec, F64.emax.
  change (xorb false false) with false.
  set (P := (mx * 5944751508129055)%positive).
  assert (HP : Z.pos P = (Z.pos mx * 5944751508129055)%Z) by (unfold P; lia).
  change (2 ^ 52)%Z with 4503599627370496%Z in Hmxr.
  change (2 ^ 53)%Z with 9007199254740992%Z in Hmxr.
  assert (H2a : (0 < 2 ^ a)%Z) by (apply Z.pow_pos_nonneg; lia).
  pose proof (digits2_pos_bounds P) as [Plo Phi].
  set (d := Z.pos (digits2_pos P)) in *.
  assert (Hd104 : (104 < d)%Z).
  { apply (Z.pow_lt_mono_r_iff 2); [lia|lia|].
    change (2 ^ 104)%Z with 20282409603651670423947251286016%Z. lia. }
  assert (Hda : (d ≤ 100 + a)%Z).
  { assert (Hlt : (2 ^ (d - 1) < 2 ^ (100 + a))%Z).
    { rewrite Z.pow_add_r by lia.
      change (2 ^ 100)%Z with 1267650600228229401496703205376%Z.
      apply Z.le_lt_trans with (1 := Plo). rewrite HP, Hmx.
      replace (Z.pos p * 2 ^ a * 5944751508129055)%Z
        with (Z.pos p * 5944751508129055 * 2 ^ a)%Z by ring.
      apply Z.mul_lt_mono_pos_r; lia. }
    apply (Z.pow_lt_mono_r_iff 2 (d - 1) (100 + a)) in Hlt; lia. }
  set (sh := (d - 53)%Z).
  destruct (binary_round_aux_shr false P (- a + -53) sh) as (m & e & Heq & Hcase);
    [reflexivity|unfold sh; lia|unfold sh; lia|].
  rewrite Heq. simpl. f_equal.
  set (t := (a + 53 - sh)%Z).
  assert (Ht : (6 ≤ t)%Z) by (unfold t, sh; lia).
  assert (HS : (0 < 2 ^ sh)%Z) by (apply Z.pow_pos_nonneg; unfold sh; lia).
  assert (HT : (64 ≤ 2 ^ t)%Z).
  { change 64%Z with (2 ^ 6)%Z. apply Z.pow_le_mono_r; lia. }
  assert (HST : (2 ^ sh * 2 ^ t = 2 ^ a * 9007199254740992)%Z).
  { change 9007199254740992%Z with (2 ^ 53)%Z.
    rewrite <- !Z.pow_add_r by (unfold t, sh; lia). f_equal. unfold t. lia. }
  set (q := (Z.pos P / 2 ^ sh)%Z) in *.
  assert (Hq : (q * 2 ^ sh ≤ Z.pos P < (q + 1) * 2 ^ sh)%Z).
  { unfold q. split.
    - rewrite Z.mul_comm. apply Z.mul_div_le; lia.
    - rewrite Z.mul_comm. apply Z.mul_succ_div_gt; lia. }
  set (k := (66 * Z.pos p / 100)%Z).
  assert (Hk : (100 * k ≤ 66 * Z.pos p ≤ 100 * k + 98)%Z).
  { pose proof (Z.div_mod (66 * Z.pos p) 100 ltac:(lia)) as Hdm.
    pose proof (Z.mod_pos_bound (66 * Z.pos p) 100 ltac:(lia)) as Hmod.
    fold k in Hdm. lia. }
  destruct (split_arith (Z.pos p) (2 ^ a) (2 ^ sh) (2 ^ t) q k (Z.pos mx) (Z.pos P))
    as (Hlo & Hhi & Hup); try assumption; try lia.
  destruct Hcase as [[He Hm]|(He & Hrb & Hq53 & Hm)].
  - rewrite He. replace (- a + -53 + sh)%Z with (- t)%Z by (unfold t; lia).
    rewrite Z.shiftl_div_pow2 by lia. rewrite Z.opp_involutive.
    apply div_between; [lia|].
    destruct Hm as [Hm|[Hrb Hm]]; rewrite Hm.
    + lia.
    + specialize (Hup (odd_half_bound (Z.pos P) sh ltac:(lia) ltac:(unfold sh; lia) Hrb)). fold q in Hup. lia.
  - specialize (Hup (odd_half_bound (Z.pos P) sh ltac:(lia) ltac:(unfold sh; lia) Hrb)).
    rewrite He. replace (- a + -53 + sh + 1)%Z with (- (t - 1))%Z by (unfold t; lia).
    rewrite Z.shiftl_div_pow2 by lia. rewrite Z.opp_involutive.
    assert (HT2 : (2 ^ t = 2 * 2 ^ (t - 1))%Z).
    { replace t with (Z.succ (t - 1)) at 1 by lia. rewrite Z.pow_succ_r by lia. lia. }
    apply div_between; [apply Z.pow_pos_nonneg; lia|].
    rewrite Hm. lia.
Qed.


(** ** Signs of rounded results *)

Section Sign.

Lemma shr_fexp_nonneg (prec emax m e : Z) (l : location) :
  (0 ≤ m)%Z → (0 ≤ shr_m (fst (shr_fexp prec emax m e l)))%Z.
Proof.
  intros Hm. unfold shr_fexp, shr.
  assert (H0 : (0 ≤ shr_m (shr_record_of_loc m l))%Z).
  { destruct l as [|[]]; simpl; exact Hm. }
  destruct (fexp prec emax (Zdigits2 m + e) - e)%Z as [|p|p]; simpl; try exact H0.
  destruct (iter_shr_1 p _ H0) as [-> _]. apply Z.div_pos; [exact H0|].
  apply Z.pow_pos_nonneg; lia.
Qed.

Lemma round_nearest_even_nonneg (m : Z) (l : location) :
  (0 ≤ m)%Z → (0 ≤ round_nearest_even m l)%Z.
Proof. intros Hm. destruct l as [|[]]; simpl; try lia. destruct (Z.even m); lia. Qed.

Lemma binary_round_aux_nonneg (prec emax m e : Z) (l : location) :
  (0 ≤ m)%Z → F64.nonneg (binary_round_aux prec emax false m e l) = true.
Proof.
  intros Hm. unfold binary_round_aux.
  pose proof (shr_fexp_nonneg prec emax m e l Hm) as H1.
  destruct (shr_fexp prec emax m e l) as [mrs' e']. simpl in H1.
  pose proof (shr_fexp_nonneg prec emax
                (round_nearest_even (shr_m mrs') (loc_of_shr_record mrs')) e' loc_Exact
                (round_nearest_even_nonneg _ _ H1)) as H2.
  destruct (shr_fexp prec emax _ e' loc_Exact) as [mrs'' e'']. simpl in H2.
  destruct (shr_m mrs'') as [|p|p]; [reflexivity| |lia].
  destruct (e'' <=? emax - prec)%Z; reflexivity.
Qed.

Lemma binary_normalize_nonneg (m e : Z) :
  (0 ≤ m)%Z → F64.nonneg (binary_normalize 53 1024 m e false) = true.
Proof.
  intros Hm. destruct m as [|p|p]; [reflexivity| |lia].
  unfold binary_normalize, binary_round.
  destruct (shl_align p e _) as [mz ez]. apply binary_round_aux_nonneg. lia.
Qed.

Lemma shl_align_fst (m : positive) (e e' : Z) :
  (e' ≤ e)%Z → Z.pos (fst (shl_align m e e')) = (Z.pos m * 2 ^ (e - e'))%Z.
Proof.
  intros Hle. unfold shl_align.
  destruct (e' - e)%Z as [|d|d] eqn:Hd; simpl; try lia.
  - replace (e - e')%Z with 0%Z by lia. lia.
  - rewrite iter_xO_pow. f_equal. f_equal. lia.
Qed.

(** Canonical binary64 mantissas: at most 53 bits, and exactly 53 above the
    smallest exponent. *)
Lemma valid_finite_bounds (s : bool) (m : positive) (e : Z) :
  valid_binary 53 1024 (S754_finite s m e) = true →
  (-1074 ≤ e)%Z ∧ (Z.pos m < 2 ^ 53)%Z ∧ ((-1074 < e)%Z → (2 ^ 52 ≤ Z.pos m)%Z).
Proof.
  unfold valid_binary, bounded, canonical_mantissa, fexp, emin.
  intros [Hc _]%andb_prop. apply Z.eqb_eq in Hc.
  pose proof (digits2_pos_bounds m) as [Hlo Hhi].
  set (d := Z.pos (digits2_pos m)) in *.
  assert (Hd : (d ≤ 53)%Z) by lia.
  split; [lia|]. split.
  - apply Z.lt_le_trans with (1 := Hhi). apply Z.pow_le_mono_r; lia.
  - intros He. assert (d = 53%Z) by lia.
    replace 52%Z with (d - 1)%Z by lia. exact Hlo.
Qed.

Lemma aligned_lt (m1 m2 : positive) (e1 e2 : Z) (s1 s2 : bool) :
  valid_binary 53 1024 (S754_finite s1 m1 e1) = true →
  valid_binary 53 1024 (S754_finite s2 m2 e2) = true →
  (e1 < e2)%Z → (Z.pos m1 < Z.pos m2 * 2 ^ (e2 - e1))%Z.
Proof.
  intros (He1 & Hm1 & _)%valid_finite_bounds (_ & _ & Hm2)%valid_finite_bounds Hlt.
  specialize (Hm2 ltac:(lia)).
  assert (2 ^ 1 ≤ 2 ^ (e2 - e1))%Z by (apply Z.pow_le_mono_r; lia).
  change (2 ^ 53)%Z with (2 ^ 52 * 2 ^ 1)%Z in Hm1. nia.
Qed.

(** The difference of two well-formed floats in increasing order is not
    negative. *)
Lemma sub_nonneg (x y : spec_float) :
  F64.finite x = true → F64.finite y = true → F64.leb x y = true →
  F64.nonneg (F64.sub y x) = true.
Proof.
  unfold F64.leb, SFleb, F64.sub.
  destruct x as [sx|sx| |sx mx ex], y as [sy|sy| |sy my ey]; try discriminate;
    unfold F64.finite; intros Hx Hy Hle.
  - destruct sx, sy; reflexivity.
  - simpl in Hle. simpl. destruct sy; [discriminate|reflexivity].
  - simpl in Hle. simpl. destruct sx; [reflexivity|discriminate].
  - unfold SFsub. apply binary_normalize_nonneg.
    rewrite !shl_align_fst by lia.
    simpl in Hle.
    destruct sx, sy; simpl; try discriminate; try lia.
    + (* both negative: [ey <= ex] *)
      destruct (Z.compare_spec ex ey) as [Heq|Hlt|Hgt]; simpl in Hle; try discriminate.
      * subst ey. change (Pos.compare_cont Eq mx my) with (Pos.compare mx my) in Hle.
        rewrite Z.min_id, Z.sub_diag.
        destruct (Pos.compare_spec mx my); simpl in Hle; try discriminate; lia.
      * pose proof (aligned_lt my mx ey ex _ _ Hy Hx Hgt) as Hal.
        rewrite Z.min_l by lia. rewrite Z.sub_diag. lia.
    + (* both positive: [ex <= ey] *)
      destruct (Z.compare_spec ex ey) as [Heq|Hlt|Hgt]; simpl in Hle; try discriminate.
      * subst ey. change (Pos.compare_cont Eq mx my) with (Pos.compare mx my) in Hle.
        rewrite Z.min_id, Z.sub_diag.
        destruct (Pos.compare_spec mx my); simpl in Hle; try discriminate; lia.
      * pose proof (aligned_lt mx my ex ey _ _ Hx Hy Hlt) as Hal.
        rewrite Z.min_r by lia. rewrite Z.sub_diag. lia.
Qed.
End Sign.

(** ** The order on floats *)

Section Order.

Ltac order_cases :=
  repeat match goal with
    | b : bool |- _ => destruct b
    end;
  simpl in *; try discriminate; try reflexivity;
  repeat match goal with
    | H : context [Z.compare ?a ?b] |- _ => destruct (Z.compare_spec a b); simpl in H
    | |- context [Z.compare ?a ?b] => destruct (Z.compare_spec a b); simpl
    end;
  try discriminate; try reflexivity; try lia;
  repeat match goal with
    | H : context [Pos.compare_cont Eq ?a ?b] |- _ =>
        change (Pos.compare_cont Eq a b) with (Pos.compare a b) in H;
        destruct (Pos.compare_spec a b); simpl in H
    | |- context [Pos.compare_cont Eq ?a ?b] =>
        change (Pos.compare_cont Eq a b) with (Pos.compare a b);
        destruct (Pos.compare_spec a b); simpl
    end;
  try discriminate; try reflexivity; try lia.

Lemma ltb_irrefl (x : spec_float) : F64.ltb x x = false.
Proof.
  unfold F64.ltb, SFltb. destruct x as [s|s| |s m e]; simpl; order_cases.
Qed.

Lemma ltb_trans (a b c : spec_float) :
  F64.ltb a b = true → F64.ltb b c = true → F64.ltb a c = true.
Proof.
  unfold F64.ltb, SFltb.
  destruct a as [sa|sa| |sa ma ea], b as [sb|sb| |sb mb eb], c as [sc|sc| |sc mc ec];
    simpl; intros Hab Hbc; order_cases.
Qed.

Lemma leb_ltb_trans (a b c : spec_float) :
  F64.leb a b = true → F64.ltb b c = true → F64.ltb a c = true.
Proof.
  unfold F64.leb, F64.ltb, SFleb, SFltb.
  destruct a as [sa|sa| |sa ma ea], b as [sb|sb| |sb mb eb], c as [sc|sc| |sc mc ec];
    simpl; intros Hab Hbc; order_cases.
Qed.

(** The comparison is total on the floats that are not NaN. *)
Lemma ltb_false_leb (a b : spec_float) :
  a ≠ S754_nan → b ≠ S754_nan → F64.ltb a b = false → F64.leb b a = true.
Proof.
  unfold F64.leb, F64.ltb, SFleb, SFltb.
  destruct a as [sa|sa| |sa ma ea], b as [sb|sb| |sb mb eb];
    simpl; intros Ha Hb Hab; try congruence; order_cases.
Qed.

Lemma ltb_nan_l (b : spec_float) : F64.ltb S754_nan b = false.
Proof. reflexivity. Qed.

End Order.

Section Search.
Variable score : order → exn + spec_float.

Lemma search_snoc cfgs o l :
  search score (cfgs ++ [o]) l = update score (search score cfgs l) o.
Proof. unfold search. apply foldl_snoc. Qed.

Lemma search_best_not_nan (cfgs : list order) : ∀ l : locals,
  best_score l ≠ S754_nan → best_score (search score cfgs l) ≠ S754_nan.
Proof.
  induction cfgs as [|o cfgs IH]; intros l Hl; [exact Hl|].
  unfold search. simpl. apply IH. unfold update.
  destruct (score o) as [e|mse]; [exact Hl|].
  destruct (F64.ltb mse (best_score l)) eqn:Hlt; [|exact Hl].
  simpl. intros ->. rewrite ltb_nan_l in Hlt. discriminate.
Qed.

(** The fold with the strict comparison keeps the first-seen minimiser. *)
Lemma search_first_seen_min (cfgs : list order) :
  first_seen_min score cfgs
    (search score cfgs {| best_score := F64.inf; best_cfg := None |}).
Proof.
  induction cfgs as [|o cfgs IH] using rev_ind.
  - split; [intros c s Hc; inversion Hc|reflexivity].
  - rewrite search_snoc.
    set (l := search score cfgs {| best_score := F64.inf; best_cfg := None |}) in *.
    destruct IH as [Hmin Hfirst]. unfold update.
    destruct (score o) as [e|mse] eqn:Ho.
    + split.
      * intros c s [Hc|Hc%list_elem_of_singleton]%elem_of_app Hs; [eauto|].
        subst c. congruence.
      * destruct (best_cfg l) as [c|]; [|exact Hfirst].
        destruct Hfirst as (i & Hi & Hc & Hbefore). exists i.
        assert (Hlt : i < length cfgs) by (eapply lookup_lt_Some; eassumption).
        split; [rewrite lookup_app_l by exact Hlt; exact Hi|]. split; [exact Hc|].
        intros j c' s Hj Hc'. rewrite lookup_app_l in Hc' by lia. eauto.
    + destruct (F64.ltb mse (best_score l)) eqn:Hlt; unfold first_seen_min; simpl.
      * split.
        -- intros c s [Hc|Hc%list_elem_of_singleton]%elem_of_app Hs.
           ++ destruct (F64.ltb s mse) eqn:Hsm; [|reflexivity].
              rewrite <- (Hmin c s Hc Hs). symmetry. eapply ltb_trans; eassumption.
           ++ subst c. rewrite Ho in Hs. injection Hs as <-. apply ltb_irrefl.
        -- exists (length cfgs). split; [apply list_lookup_middle; reflexivity|].
           split; [exact Ho|].
           intros j c' s Hj Hc' Hs. rewrite lookup_app_l in Hc' by exact Hj.
           destruct (F64.leb s mse) eqn:Hsm; [|reflexivity].
           rewrite <- (Hmin c' s (list_elem_of_lookup_2 _ _ _ Hc') Hs).
           symmetry. eapply leb_ltb_trans; eassumption.
      * split.
        -- intros c s [Hc|Hc%list_elem_of_singleton]%elem_of_app Hs; [eauto|].
           subst c. rewrite Ho in Hs. injection Hs as <-. exact Hlt.
        -- destruct (best_cfg l) as [c|]; [|exact Hfirst].
           destruct Hfirst as (i & Hi & Hc & Hbefore). exists i.
           assert (Hlti : i < length cfgs) by (eapply lookup_lt_Some; eassumption).
           split; [rewrite lookup_app_l by exact Hlti; exact Hi|]. split; [exact Hc|].
           intros j c' s Hj Hc'. rewrite lookup_app_l in Hc' by lia. eauto.
Qed.
End Search.

Section Grid.

Lemma bind_singleton_fmap {A B} (g : A → B) (l : list A) :
  l ≫= (λ x, [g x]) = g <$> l.
Proof.
  induction l as [|x l IH]; [reflexivity|].
  change ((x :: l) ≫= (λ x, [g x])) with (g x :: (l ≫= (λ x, [g x]))).
  rewrite IH. reflexivity.
Qed.

Lemma length_bind_uniform {A B} (f : A → list B) (n : nat) (l : list A) :
  (∀ x, length (f x) = n) → length (l ≫= f) = length l * n.
Proof.
  intros Hlen. induction l as [|y l IH]; [reflexivity|].
  change ((y :: l) ≫= f) with (f y ++ (l ≫= f)).
  rewrite length_app, Hlen, IH. simpl. lia.
Qed.

Lemma lookup_bind_uniform {A B} (f : A → list B) (n : nat) (l : list A) :
  (∀ x, length (f x) = n) →
  ∀ (i j : nat) (x : A), l !! i = Some x → j < n → (l ≫= f) !! (i * n + j) = f x !! j.
Proof.
  intros Hlen. induction l as [|y l IH]; intros i j x Hi Hj; [discriminate|].
  change ((y :: l) ≫= f) with (f y ++ (l ≫= f)).
  destruct i as [|i]; simpl in Hi.
  - injection Hi as ->. simpl. rewrite lookup_app_l by (rewrite Hlen; exact Hj). reflexivity.
  - rewrite lookup_app_r by (rewrite Hlen; lia).
    rewrite Hlen. replace (S i * n + j - n) with (i * n + j) by lia. apply IH; assumption.
Qed.

(** The position of an order in [grid]: [p] is the slowest index and [q]
    the fastest. *)
Lemma grid_lookup (ps ds qs : list Z) (i j k : nat) (p d q : Z) :
  ps !! i = Some p → ds !! j = Some d → qs !! k = Some q →
  grid ps ds qs !! ((i * length ds + j) * length qs + k) = Some (p, d, q).
Proof.
  intros Hp Hd Hq. unfold grid.
  pose proof (lookup_lt_Some _ _ _ Hd) as Hj.
  pose proof (lookup_lt_Some _ _ _ Hq) as Hk.
  assert (Hinner : ∀ p' d' : Z, length (qs ≫= λ q', [(p', d', q')]) = length qs).
  { intros p' d'. rewrite (bind_singleton_fmap (λ q', (p', d', q'))). apply length_fmap. }
  assert (Hmid : ∀ p' : Z, length (ds ≫= λ d', qs ≫= λ q', [(p', d', q')])
                       = length ds * length qs).
  { intros p'. apply length_bind_uniform. intros d'. apply Hinner. }
  replace ((i * length ds + j) * length qs + k)
    with (i * (length ds * length qs) + (j * length qs + k)) by lia.
  rewrite (lookup_bind_uniform _ (length ds * length qs) ps Hmid i _ p Hp) by nia.
  rewrite (lookup_bind_uniform _ (length qs) ds (Hinner p) j k d Hd Hk).
  rewrite (bind_singleton_fmap (λ q', (p, d, q'))), list_lookup_fmap, Hq. reflexivity.
Qed.
End Grid.

(** ** Running statements *)

Section MonadFacts.
Context {S : Type}.

Lemma run_bind {A B} (m : M S A) (k : A → M S B) (s : S) :
  (m ≫= k) s = match m s with
               | (s', inr a) => k a s'
               | (s', inl e) => (s', inl e)
               end.
Proof. reflexivity. Qed.

Lemma for_each_ext {A} (l : list A) (b1 b2 : A → M S unit) :
  (∀ x s, b1 x s = b2 x s) → ∀ s, for_each l b1 s = for_each l b2 s.
Proof.
  intros Hb. induction l as [|x l IH]; intros s; simpl; [reflexivity|].
  rewrite !run_bind, Hb. destruct (b2 x s) as [s' [e|[]]]; [reflexivity|apply IH].
Qed.

Lemma for_each_app {A} (l1 l2 : list A) (body : A → M S unit) (s : S) :
  for_each (l1 ++ l2) body s = (for_each l1 body;; for_each l2 body) s.
Proof.
  revert s. induction l1 as [|x l1 IH]; intros s; simpl; [reflexivity|].
  rewrite !run_bind. destruct (body x s) as [s' [e|[]]]; [reflexivity|].
  rewrite IH. reflexivity.
Qed.

Lemma for_each_singleton {A} (x : A) (body : A → M S unit) (s : S) :
  for_each [x] body s = body x s.
Proof.
  simpl. rewrite run_bind. destruct (body x s) as [s' [e|[]]]; reflexivity.
Qed.

Lemma for_each_list_bind {A B} (l : list A) (f : A → list B) (body : B → M S unit) (s : S) :
  for_each (l ≫= f) body s = for_each l (λ x, for_each (f x) body) s.
Proof.
  revert s. induction l as [|x l IH]; intros s; [reflexivity|].
  change ((x :: l) ≫= f) with (f x ++ (l ≫= f)).
  rewrite for_each_app. simpl. rewrite !run_bind.
  destruct (for_each (f x) body s) as [s' [e|[]]]; [reflexivity|apply IH].
Qed.

(** Three nested loops visit the orders of [grid], in that sequence. *)
Lemma nested_loops_grid (ps ds qs : list Z) (body : order → M S unit) (s : S) :
  for_each ps (λ p, for_each ds (λ d, for_each qs (λ q, body (p, d, q)))) s
  = for_each (grid ps ds qs) body s.
Proof.
  unfold grid. rewrite for_each_list_bind. apply for_each_ext. clear s.
  intros p s. rewrite for_each_list_bind. apply for_each_ext. clear s.
  intros d s. rewrite for_each_list_bind. apply for_each_ext. clear s.
  intros q s. rewrite for_each_singleton. reflexivity.
Qed.
End MonadFacts.

Section StoreFacts.

Lemma slice_index_range (len i : Z) :
  (0 ≤ len)%Z → (0 ≤ slice_index len i ≤ len)%Z.
Proof. intros Hlen. unfold slice_index. destruct (Z.ltb_spec i 0); lia. Qed.

Lemma nd_contents_Some (h : gmap loc (list spec_float)) (a : ndarray) (xs : list spec_float) :
  nd_contents h a = Some xs ↔
  ∃ buf, h !! nd_buf a = Some buf ∧ nd_off a + nd_len a ≤ length buf ∧
         xs = take (nd_len a) (drop (nd_off a) buf).
Proof.
  unfold nd_contents. split.
  - destruct (h !! nd_buf a) as [buf|]; simpl; [|discriminate].
    case_decide; [|discriminate]. intros [= <-]. eauto.
  - intros (buf & -> & Hle & ->). simpl. rewrite decide_True by exact Hle. reflexivity.
Qed.

Lemma nd_contents_length h a xs :
  nd_contents h a = Some xs → length xs = nd_len a.
Proof.
  intros (buf & _ & Hle & ->)%nd_contents_Some.
  rewrite length_take, length_drop. lia.
Qed.

Lemma nd_contents_mono (h h' : gmap loc (list spec_float)) a xs :
  h ⊆ h' → nd_contents h a = Some xs → nd_contents h' a = Some xs.
Proof.
  intros Hsub (buf & Hbuf & Hle & ->)%nd_contents_Some.
  apply nd_contents_Some. exists buf. split; [|split; [exact Hle|reflexivity]].
  eapply lookup_weaken; eassumption.
Qed.

Lemma nd_contents_insert_ne (h : gmap loc (list spec_float)) l v a :
  l ≠ nd_buf a → nd_contents (<[l:=v]> h) a = nd_contents h a.
Proof. intros Hne. unfold nd_contents. rewrite lookup_insert_ne by exact Hne. reflexivity. Qed.

Lemma nd_contents_slice h a xs i j :
  nd_contents h a = Some xs →
  nd_contents h (np_slice a i j) = Some (py_slice xs i j).
Proof.
  intros Hc. pose proof (nd_contents_length _ _ _ Hc) as Hlen.
  apply nd_contents_Some in Hc as (buf & Hbuf & Hle & ->).
  apply nd_contents_Some. exists buf. unfold np_slice, py_slice, np_len. simpl.
  rewrite Hlen.
  set (len := Z.of_nat (nd_len a)).
  set (lo := slice_index len i).
  set (hi := match j with Some j0 => slice_index len j0 | None => len end).
  assert (Hlo : (0 ≤ lo ≤ len)%Z) by (apply slice_index_range; lia).
  assert (Hhi : (0 ≤ hi ≤ len)%Z).
  { unfold hi. destruct j; [apply slice_index_range|]; lia. }
  split; [exact Hbuf|]. split; [lia|].
  rewrite skipn_firstn_comm, take_take, drop_drop.
  f_equal. lia.
Qed.

End StoreFacts.

Section StoreOps.

Lemma list_read_run w l xs :
  heap w !! l = Some xs → list_read l w = (w, inr xs).
Proof. intros Hl. unfold list_read. rewrite Hl. reflexivity. Qed.

Lemma list_append_run w l xs x :
  heap w !! l = Some xs →
  list_append l x w = ({| heap := <[l:=xs ++ [x]]> (heap w); stdout := stdout w |}, inr tt).
Proof. intros Hl. unfold list_append. rewrite Hl. reflexivity. Qed.

Lemma np_read_run w a xs :
  nd_contents (heap w) a = Some xs → np_read a w = (w, inr xs).
Proof. intros Hc. unfold np_read. rewrite Hc. reflexivity. Qed.

Lemma np_getitem_run w a xs (k : nat) x :
  nd_contents (heap w) a = Some xs → xs !! k = Some x →
  np_getitem a (Z.of_nat k) w = (w, inr x).
Proof.
  intros Hc Hk. unfold np_getitem. rewrite Hc.
  destruct (Z.ltb_spec (Z.of_nat k) 0) as [?|_]; [lia|].
  destruct (Z.leb_spec 0 (Z.of_nat k)) as [_|?]; [|lia].
  rewrite Nat2Z.id, Hk. reflexivity.
Qed.

End StoreOps.

Section Evaluator.
Context `{Statsmodels, Sklearn}.

Lemma one_step_run {A} (h : list spec_float) (o : order) (k : spec_float → M world A) w :
  (model ← lift_exn (ARIMA h o);
   model_fit ← lift_exn (ARIMA_fit model);
   yhat ← lift_exn (ARIMA_forecast model_fit);
   k yhat) w
  = match one_step h o with
    | inl e => (w, inl e)
    | inr yhat => k yhat w
    end.
Proof.
  unfold one_step. rewrite run_bind. unfold lift_exn at 1.
  destruct (ARIMA h o) as [e|model]; simpl; [reflexivity|].
  rewrite run_bind. unfold lift_exn at 1.
  destruct (ARIMA_fit model) as [e|model_fit]; simpl; [reflexivity|].
  rewrite run_bind. unfold lift_exn at 1.
  destruct (ARIMA_forecast model_fit) as [e|yhat]; reflexivity.
Qed.

(** The invariant of the walk: before step [k] the history holds
    [train ++ take k test] and [predictions] holds the forecasts made so far;
    no other object changes. *)
Lemma walk_loop (test_v : ndarray) (train test : list spec_float) (o : order)
    (hist pred : loc) :
  hist ≠ pred → nd_buf test_v ≠ hist → nd_buf test_v ≠ pred →
  ∀ (m k : nat) (acc : list spec_float) (w : world),
    k + m = length test →
    heap w !! hist = Some (train ++ take k test) →
    heap w !! pred = Some acc →
    nd_contents (heap w) test_v = Some test →
    ∃ w' r,
      for_each (Z.of_nat <$> seq k m) (λ t,
        h ← list_read hist;
        model ← lift_exn (ARIMA h o);
        model_fit ← lift_exn (ARIMA_fit model);
        yhat ← lift_exn (ARIMA_forecast model_fit);
        list_append pred yhat;;
        x ← np_getitem test_v t;
        list_append hist x) w = (w', r) ∧
      stdout w' = stdout w ∧
      (∀ l, l ≠ hist → l ≠ pred → heap w' !! l = heap w !! l) ∧
      match mapM (λ t, one_step (train ++ take t test) o) (seq k m) with
      | inl e => r = inl e
      | inr ps => r = inr tt ∧ heap w' !! pred = Some (acc ++ ps) ∧
                  heap w' !! hist = Some (train ++ test)
      end.
Proof.
  intros Hhp Hth Htp m.
  induction m as [|m IH]; intros k acc w Hk Hhist Hpred Htest.
  - exists w, (inr tt). simpl. split; [reflexivity|]. split; [reflexivity|].
    split; [reflexivity|]. split; [reflexivity|].
    rewrite app_nil_r. split; [exact Hpred|].
    rewrite take_ge in Hhist by lia. exact Hhist.
  - simpl seq. rewrite fmap_cons. simpl for_each. simpl mapM.
    rewrite run_bind, run_bind, (list_read_run _ _ _ Hhist).
    rewrite one_step_run.
    destruct (one_step (train ++ take k test) o) as [e|yhat]; simpl.
    { exists w, (inl e). auto. }
    assert (Hx : is_Some (test !! k)) by (apply lookup_lt_is_Some; lia).
    destruct Hx as [x Hx].
    rewrite run_bind, (list_append_run _ _ _ _ Hpred).
    rewrite run_bind, (np_getitem_run _ _ test k x); simpl;
      [|rewrite nd_contents_insert_ne by congruence; exact Htest|exact Hx].
    rewrite (list_append_run _ _ (train ++ take k test));
      [|simpl; rewrite lookup_insert_ne by congruence; exact Hhist].
    simpl.
    match goal with |- ∃ w' r, for_each _ _ ?w0 = _ ∧ _ => set (w2 := w0) end.
    destruct (IH (S k) (acc ++ [yhat]) w2) as (w' & r & Hrun & Hout & Hframe & Hres).
    + lia.
    + unfold w2; simpl. rewrite lookup_insert_eq. f_equal.
      rewrite (take_S_r _ _ _ Hx). rewrite app_assoc. reflexivity.
    + unfold w2; simpl. rewrite lookup_insert_ne by congruence.
      rewrite lookup_insert_eq. reflexivity.
    + unfold w2; simpl. rewrite !nd_contents_insert_ne by congruence. exact Htest.
    + exists w', r. split; [exact Hrun|]. split; [rewrite Hout; reflexivity|].
      split.
      * intros l Hl1 Hl2. rewrite Hframe by assumption. unfold w2; simpl.
        rewrite !lookup_insert_ne by congruence. reflexivity.
      * destruct (mapM (λ t, one_step (train ++ take t test) o) (seq (S k) m)) as [e|ps];
          simpl; [exact Hres|].
        destruct Hres as (-> & Hp & Hh). split; [reflexivity|]. split; [|exact Hh].
        rewrite Hp, <- app_assoc. reflexivity.
Qed.

Lemma alloc_run w xs :
  ∃ l, alloc xs w = ({| heap := <[l:=xs]> (heap w); stdout := stdout w |}, inr l) ∧
       heap w !! l = None.
Proof.
  exists (fresh (dom (heap w))). split; [reflexivity|].
  apply not_elem_of_dom, is_fresh.
Qed.

(** What the walk leaves behind: the forecasts in a fresh list, the grown
    history in another, and every earlier object as it was. *)
Lemma walk_forward_run w X xs o :
  nd_contents (heap w) X = Some xs →
  ∃ w' r,
    walk_forward X o w = (w', r) ∧ stdout w' = stdout w ∧ heap w ⊆ heap w' ∧
    match train_size (Z.of_nat (length xs)) with
    | inl e => r = inl e
    | inr size =>
        match forecasts (py_slice xs 0 (Some size)) (py_slice xs size None) o with
        | inl e => r = inl e
        | inr preds =>
            ∃ lp lh, r = inr (np_slice X size None, lp) ∧
                     heap w' !! lp = Some preds ∧ heap w !! lp = None ∧
                     heap w' !! lh = Some (py_slice xs 0 (Some size) ++ py_slice xs size None) ∧
                     heap w !! lh = None
        end
    end.
Proof.
  intros HX. pose proof (nd_contents_length _ _ _ HX) as Hlen.
  unfold walk_forward. rewrite run_bind. unfold lift_exn at 1.
  unfold np_len at 1. rewrite <- Hlen.
  destruct (train_size (Z.of_nat (length xs))) as [e|size].
  { exists w, (inl e). auto. }
  set (train := py_slice xs 0 (Some size)).
  set (test := py_slice xs size None).
  set (test_v := np_slice X size None).
  assert (Htrain : nd_contents (heap w) (np_slice X 0 (Some size)) = Some train)
    by (apply nd_contents_slice; exact HX).
  assert (Htest : nd_contents (heap w) test_v = Some test)
    by (apply nd_contents_slice; exact HX).
  assert (HbufX : is_Some (heap w !! nd_buf X)).
  { apply nd_contents_Some in HX as (buf & Hbuf & _). eauto. }
  rewrite run_bind, (np_read_run _ _ _ Htrain).
  destruct (alloc_run w train) as (hist & Hrun1 & Hfresh1).
  rewrite run_bind, Hrun1.
  match type of Hrun1 with _ = (?w0, _) => set (w1 := w0) in * end.
  destruct (alloc_run w1 []) as (pred & Hrun2 & Hfresh2).
  rewrite run_bind, Hrun2.
  match type of Hrun2 with _ = (?w0, _) => set (w2 := w0) in * end.
  assert (Hhp : hist ≠ pred).
  { intros ->. unfold w1 in Hfresh2; simpl in Hfresh2.
    rewrite lookup_insert_eq in Hfresh2. discriminate. }
  assert (Hpw : heap w !! pred = None).
  { unfold w1 in Hfresh2; simpl in Hfresh2.
    rewrite lookup_insert_ne in Hfresh2 by exact Hhp. exact Hfresh2. }
  assert (Hth : nd_buf test_v ≠ hist).
  { intros Heq. simpl in Heq. rewrite Heq, Hfresh1 in HbufX. destruct HbufX; discriminate. }
  assert (Htp : nd_buf test_v ≠ pred).
  { intros Heq. simpl in Heq. rewrite Heq, Hpw in HbufX. destruct HbufX; discriminate. }
  pose proof (nd_contents_length _ _ _ Htest) as Hlen_test.
  destruct (walk_loop test_v train test o hist pred Hhp Hth Htp
              (length test) 0 [] w2) as (w' & r & Hloop & Hout & Hframe & Hres).
  - lia.
  - unfold w2, w1; simpl. rewrite lookup_insert_ne by congruence.
    rewrite lookup_insert_eq, app_nil_r. reflexivity.
  - unfold w2; simpl. rewrite lookup_insert_eq. reflexivity.
  - unfold w2, w1; simpl. rewrite !nd_contents_insert_ne by congruence. exact Htest.
  - rewrite run_bind. unfold py_range, np_len. rewrite Nat2Z.id, <- Hlen_test, Hloop.
    assert (Hsub : heap w ⊆ heap w').
    { apply map_subseteq_spec. intros l v Hl.
      rewrite Hframe; [|intros ->; congruence|intros ->; congruence].
      unfold w2, w1; simpl.
      rewrite !lookup_insert_ne by (intros ->; congruence). exact Hl. }
    unfold forecasts. fold train test.
    destruct (mapM (λ t, one_step (train ++ take t test) o) (seq 0 (length test))) as [e|preds].
    + subst r. exists w', (inl e). auto.
    + destruct Hres as (-> & Hp & Hh). exists w', (inr (test_v, pred)).
      split; [reflexivity|]. split; [rewrite Hout; reflexivity|]. split; [exact Hsub|].
      exists pred, hist. split; [reflexivity|]. split; [exact Hp|]. split; [exact Hpw|].
      split; [exact Hh|exact Hfresh1].
Qed.

(** The evaluator computes [arima_mse] of the elements of [X], whatever else
    the store holds, prints nothing and only adds objects to the store. *)
Lemma evaluate_arima_model_run w X xs o :
  nd_contents (heap w) X = Some xs →
  ∃ w', evaluate_arima_model X o w = (w', arima_mse xs o) ∧
        stdout w' = stdout w ∧ heap w ⊆ heap w' ∧ w' = fst (walk_forward X o w).
Proof.
  intros HX. pose proof (nd_contents_length _ _ _ HX) as Hlen.
  destruct (walk_forward_run w X xs o HX) as (w' & r & Hrun & Hout & Hsub & Hres).
  exists w'. rewrite Hrun. unfold evaluate_arima_model, arima_mse.
  rewrite run_bind, Hrun.
  destruct (train_size (Z.of_nat (length xs))) as [e|size]; simpl.
  { subst r. auto. }
  destruct (forecasts (py_slice xs 0 (Some size)) (py_slice xs size None) o) as [e|preds];
    simpl.
  { subst r. auto. }
  destruct Hres as (lp & lh & -> & Hlp & _).
  assert (Htest : nd_contents (heap w') (np_slice X size None) = Some (py_slice xs size None)).
  { apply nd_contents_slice. eapply nd_contents_mono; eassumption. }
  rewrite run_bind, (np_read_run _ _ _ Htest).
  rewrite run_bind, (list_read_run _ _ _ Hlp).
  rewrite run_bind. unfold lift_exn.
  destruct (mean_squared_error (py_slice xs size None) preds); auto.
Qed.
End Evaluator.

Section Formatting.

Lemma string_app_nil_r (s : string) : s +:+ EmptyString = s.
Proof. induction s as [|c s IH]; [reflexivity|]. rewrite <- IH at 2. reflexivity. Qed.

Lemma progress_format (o : order) (mse : spec_float) :
  ∃ s, py_format "ARIMA%s MSE=%.3f" (PyTuple [py_order o; PyFloat mse]) = inr s ∧
       PyStr s = progress_line o mse.
Proof.
  destruct o as [[p d] q]. eexists. split; [reflexivity|].
  unfold progress_line. simpl. rewrite string_app_nil_r. reflexivity.
Qed.

Lemma summary_format (l : locals) :
  ∃ s, py_format "Best ARIMA%s MSE=%.3f"
         (PyTuple [py_cfg (best_cfg l); PyFloat (best_score l)]) = inr s ∧
       PyStr s = summary_line l.
Proof.
  unfold summary_line. destruct (best_cfg l) as [[[p d] q]|]; simpl.
  - eexists. split; [reflexivity|]. simpl. rewrite string_app_nil_r. reflexivity.
  - eexists. split; [reflexivity|]. simpl. rewrite string_app_nil_r. reflexivity.
Qed.
End Formatting.

Section Driver.
Context `{Statsmodels, Sklearn}.

#[local] Arguments py_format : simpl never.

Lemma run_lift {S L A} (m : M S A) (s : S) (l : L) :
  lift m (s, l) = (let '(s', r) := m s in ((s', l), r)).
Proof. reflexivity. Qed.

(** One [try] statement is one step of [update]. *)
Lemma evaluate_order_run w l X xs o :
  nd_contents (heap w) X = Some xs →
  ∃ w', evaluate_order X o (w, l) = ((w', update (arima_mse xs) l o), inr tt) ∧
        stdout w' = stdout w ++ progress_lines (arima_mse xs) [o] ∧
        heap w ⊆ heap w'.
Proof.
  intros HX.
  destruct (evaluate_arima_model_run w X xs o HX) as (w' & Hrun & Hout & Hsub & _).
  unfold evaluate_order, try_except, update, progress_lines. simpl omap.
  rewrite run_bind, run_lift, Hrun.
  destruct (arima_mse xs o) as [e|mse].
  { exists w'. rewrite Hout, app_nil_r. auto. }
  rewrite run_bind. simpl.
  destruct (progress_format o mse) as (s & Hfmt & Hline).
  destruct (F64.ltb mse (best_score l)); simpl.
  - rewrite run_bind. unfold lift_exn. rewrite Hfmt. simpl.
    eexists. split; [reflexivity|]. simpl. rewrite Hout, Hline. auto.
  - rewrite run_bind. unfold lift_exn. rewrite Hfmt. simpl.
    eexists. split; [destruct l; reflexivity|]. simpl. rewrite Hout, Hline. auto.
Qed.

Lemma orders_loop_run X xs (cfgs : list order) : ∀ w l,
  nd_contents (heap w) X = Some xs →
  ∃ w', for_each cfgs (evaluate_order X) (w, l)
        = ((w', search (arima_mse xs) cfgs l), inr tt) ∧
        stdout w' = stdout w ++ progress_lines (arima_mse xs) cfgs ∧
        heap w ⊆ heap w'.
Proof.
  induction cfgs as [|o cfgs IH]; intros w l HX.
  - exists w. simpl. rewrite app_nil_r. auto.
  - destruct (evaluate_order_run w l X xs o HX) as (w1 & Hrun1 & Hout1 & Hsub1).
    destruct (IH w1 (update (arima_mse xs) l o)) as (w' & Hrun & Hout & Hsub).
    { eapply nd_contents_mono; eassumption. }
    exists w'. simpl for_each. rewrite run_bind, Hrun1, Hrun.
    split; [reflexivity|]. split.
    + rewrite Hout, Hout1, <- app_assoc. unfold progress_lines.
      change (o :: cfgs) with ([o] ++ cfgs). rewrite omap_app. reflexivity.
    + etrans; eassumption.
Qed.

Lemma astype_float32_run w X xs :
  nd_contents (heap w) X = Some xs →
  ∃ w' X', astype_float32 X w = (w', inr X') ∧
           nd_contents (heap w') X' = Some (F64.to_float32 <$> xs) ∧
           heap w !! nd_buf X' = None ∧
           stdout w' = stdout w ∧ heap w ⊆ heap w'.
Proof.
  intros HX. unfold astype_float32.
  destruct (alloc_run w (F64.to_float32 <$> xs)) as (buf & Hrun & Hfresh).
  eexists _, _. rewrite run_bind, (np_read_run _ _ _ HX), run_bind, Hrun.
  split; [reflexivity|]. simpl. split; [|split; [exact Hfresh|split; [reflexivity|]]].
  - apply nd_contents_Some. exists (F64.to_float32 <$> xs). simpl.
    rewrite lookup_insert_eq, length_fmap. split; [reflexivity|]. split; [lia|].
    rewrite drop_0, <- (length_fmap F64.to_float32), take_ge by lia. reflexivity.
  - apply insert_subseteq. exact Hfresh.
Qed.

(** The three loops are the fold [search] over [grid]. *)
Lemma evaluate_models_run w l0 X xs ps ds qs :
  nd_contents (heap w) X = Some xs →
  let score := arima_mse (F64.to_float32 <$> xs) in
  let l' := search score (grid ps ds qs) {| best_score := F64.inf; best_cfg := None |} in
  ∃ w', evaluate_models X ps ds qs (w, l0) = ((w', l'), inr tt) ∧
        stdout w' = stdout w ++ progress_lines score (grid ps ds qs) ++ [summary_line l'] ∧
        heap w ⊆ heap w'.
Proof.
  intros HX score l'.
  destruct (astype_float32_run w X xs HX) as (w1 & X' & Hrun1 & HX' & _ & Hout1 & Hsub1).
  destruct (orders_loop_run X' _ (grid ps ds qs) w1
              {| best_score := F64.inf; best_cfg := None |} HX')
    as (w2 & Hrun2 & Hout2 & Hsub2).
  fold score in Hrun2, Hout2. fold l' in Hrun2.
  destruct (summary_format l') as (s & Hfmt & Hline).
  unfold evaluate_models.
  rewrite run_bind, run_lift, Hrun1. rewrite run_bind. simpl.
  rewrite run_bind, nested_loops_grid, Hrun2.
  rewrite run_bind. simpl. rewrite run_bind. unfold lift_exn. rewrite Hfmt. simpl.
  eexists. split; [reflexivity|]. simpl.
  split.
  - rewrite Hout2, Hout1, Hline, <- app_assoc. reflexivity.
  - etrans; eassumption.
Qed.
End Driver.

(** ** The timing sweep *)

Section Timer.
Context `{XGBoost}.

Lemma duration_shift (c : nat → spec_float) (k n : nat) :
  duration c k <$> seq 1 n = duration c (S (S k)) <$> seq 0 n.
Proof.
  rewrite <- fmap_S_seq, <- list_fmap_compose. apply list_fmap_ext.
  intros _ i _. unfold duration. simpl. f_equal; f_equal; lia.
Qed.

Lemma time_fit_run (n : Z) (w : timer_world) :
  XGBClassifier_fit n = inr tt →
  let elapsed := F64.sub (clock w (S (ticks w))) (clock w (ticks w)) in
  time_fit n w =
    ({| clock := clock w; ticks := S (S (ticks w));
        results := results w ++ [PyFloat elapsed];
        printed := printed w ++ [PyTuple [PyInt n; PyFloat elapsed]] |}, inr tt).
Proof.
  intros Hn. unfold time_fit, mbind, M_bind, time_time, lift_exn. rewrite Hn. reflexivity.
Qed.

Lemma timing_loop_run (num_threads : list Z) : ∀ w : timer_world,
  Forall (λ n, XGBClassifier_fit n = inr tt) num_threads →
  let durs := duration (clock w) (ticks w) <$> seq 0 (length num_threads) in
  ∃ w',
    for_each num_threads time_fit w = (w', inr tt) ∧
    clock w' = clock w ∧
    ticks w' = ticks w + 2 * length num_threads ∧
    results w' = results w ++ (PyFloat <$> durs) ∧
    printed w' = printed w ++
                 zip_with (λ n e, PyTuple [PyInt n; PyFloat e]) num_threads durs.
Proof.
  induction num_threads as [|n ns IH]; intros w Hfit durs.
  - exists w. simpl. rewrite !app_nil_r. repeat split; lia.
  - apply Forall_cons in Hfit as [Hn Hns].
    simpl for_each. rewrite run_bind, (time_fit_run n w Hn).
    match goal with |- ∃ w', for_each _ _ ?w0 = _ ∧ _ => set (w2 := w0) end.
    destruct (IH w2 Hns) as (w' & Hrun & Hclock & Hticks & Hres & Hpr).
    exists w'. split; [exact Hrun|].
    unfold w2 in Hclock, Hticks, Hres, Hpr; simpl in Hclock, Hticks, Hres, Hpr.
    split; [exact Hclock|]. split; [rewrite Hticks; simpl; lia|].
    assert (Hd : durs = F64.sub (clock w (S (ticks w))) (clock w (ticks w))
                        :: (duration (clock w) (S (S (ticks w))) <$> seq 0 (length ns))).
    { unfold durs. simpl length. simpl seq. rewrite fmap_cons, duration_shift.
      f_equal. unfold duration. f_equal; f_equal; lia. }
    rewrite Hd. split.
    + rewrite Hres, <- app_assoc. reflexivity.
    + rewrite Hpr, <- app_assoc. reflexivity.
Qed.

Lemma timing_sweep_run (num_threads : list Z) (w : timer_world) :
  Forall (λ n, XGBClassifier_fit n = inr tt) num_threads →
  let durs := duration (clock w) (ticks w) <$> seq 0 (length num_threads) in
  ∃ w',
    timing_sweep num_threads w = (w', inr tt) ∧
    results w' = PyFloat <$> durs ∧
    printed w' = printed w ++
                 zip_with (λ n e, PyTuple [PyInt n; PyFloat e]) num_threads durs.
Proof.
  intros Hfit durs. unfold timing_sweep. rewrite run_bind. unfold results_reset at 1.
  match goal with |- ∃ w', for_each _ _ ?w0 = _ ∧ _ => set (w1 := w0) end.
  destruct (timing_loop_run num_threads w1 Hfit) as (w' & Hrun & _ & _ & Hres & Hpr).
  exists w'. split; [exact Hrun|]. split; [exact Hres|exact Hpr].
Qed.
End Timer.

(** ** Facts about walks that fail or succeed *)

Section MapM.
Context {A B : Type} (f : A → exn + B).

Lemma mapM_inr_lookup (l : list A) : ∀ ys : list B,
  mapM f l = inr ys →
  length ys = length l ∧
  ∀ (i : nat) (x : A) (y : B), l !! i = Some x → ys !! i = Some y → f x = inr y.
Proof.
  induction l as [|a l IH]; intros ys Hm; simpl in Hm.
  - injection Hm as <-. split; [reflexivity|]. intros i x y Hx. discriminate.
  - destruct (f a) as [e|b] eqn:Hfa; simpl in Hm; [discriminate|].
    destruct (mapM f l) as [e|bs] eqn:Hl; simpl in Hm; [discriminate|].
    injection Hm as <-. destruct (IH bs eq_refl) as [Hlen Hlk].
    split; [simpl; rewrite Hlen; reflexivity|].
    intros [|i] x y Hx Hy; simpl in Hx, Hy.
    + injection Hx as <-. injection Hy as <-. exact Hfa.
    + eapply Hlk; eassumption.
Qed.

Lemma mapM_first_failure (l : list A) : ∀ (i : nat) (x : A) (e : exn),
  l !! i = Some x → f x = inl e →
  (∀ (j : nat) (y : A), j < i → l !! j = Some y → ∃ v, f y = inr v) →
  mapM f l = inl e.
Proof.
  induction l as [|a l IH]; intros i x e Hx He Hbefore; [discriminate|].
  destruct i as [|i]; simpl in Hx.
  - injection Hx as ->. simpl. rewrite He. reflexivity.
  - destruct (Hbefore 0 a ltac:(lia) eq_refl) as [v Hv]. simpl. rewrite Hv. simpl.
    rewrite (IH i x e Hx He); [reflexivity|].
    intros j y Hj Hy. apply (Hbefore (S j) y); [lia|exact Hy].
Qed.
End MapM.

Section AllFail.
Variable score : order → exn + spec_float.

Lemma search_all_fail (cfgs : list order) (l : locals) :
  (∀ c, c ∈ cfgs → ∃ e, score c = inl e) →
  search score cfgs l = l ∧ progress_lines score cfgs = [].
Proof.
  revert l. induction cfgs as [|o cfgs IH]; intros l Hfail; [split; reflexivity|].
  destruct (Hfail o ltac:(left)) as [e He].
  destruct (IH l) as [Hs Hp]; [intros c Hc; apply Hfail; right; exact Hc|].
  unfold search, progress_lines in *. simpl. unfold update at 2. rewrite He. split; assumption.
Qed.
End AllFail.

(** * Part III: the properties of the specification *)

(** C1.  For every series and every three collections of candidate values,
    [evaluate_models] returns normally and the configuration it reports is the
    first-seen minimiser over the orders it evaluated: no evaluated order has a
    strictly smaller error than the reported one ([<] is the comparison the
    loop uses), the reported order has exactly the reported error, and every
    order visited before it has an error that is not [<=] the reported one, so
    a tie is won by the order seen first.  The orders are visited, and their
    lines printed, in the sequence [grid]: the Cartesian product with [p]
    outermost, then [d], then [q]. *)
Theorem grid_search_reports_first_seen_minimiser `{Statsmodels, Sklearn}
    (w : world) (l0 : locals) (dataset : ndarray) (xs : list spec_float)
    (p_values d_values q_values : list Z) :
  nd_contents (heap w) dataset = Some xs →
  let score := arima_mse (F64.to_float32 <$> xs) in
  let cfgs := grid p_values d_values q_values in
  ∃ (w' : world) (l' : locals),
    evaluate_models dataset p_values d_values q_values (w, l0) = ((w', l'), inr tt) ∧
    first_seen_min score cfgs l' ∧
    (∀ (c : order) (s : spec_float),
       c ∈ cfgs → score c = inr s → s ≠ S754_nan → F64.leb (best_score l') s = true) ∧
    stdout w' = stdout w ++ progress_lines score cfgs ++ [summary_line l'] ∧
    ∀ (i j k : nat) (p d q : Z),
      p_values !! i = Some p → d_values !! j = Some d → q_values !! k = Some q →
      cfgs !! ((i * length d_values + j) * length q_values + k) = Some (p, d, q).
Proof.
  intros HX score cfgs.
  destruct (evaluate_models_run w l0 dataset xs p_values d_values q_values HX)
    as (w' & Hrun & Hout & _).
  pose proof (search_first_seen_min score cfgs) as Hmin.
  exists w', (search score cfgs {| best_score := F64.inf; best_cfg := None |}).
  split; [exact Hrun|]. split; [exact Hmin|]. split; [|split; [exact Hout|]].
  - intros c s Hc Hs Hnan. apply ltb_false_leb; [exact Hnan| |].
    + apply search_best_not_nan. discriminate.
    + destruct Hmin as [Hlow _]. eapply Hlow; eassumption.
  - intros i j k p d q. apply grid_lookup.
Qed.

Lemma grid_search_reports_first_seen_minimiser_witness :
  nd_contents (heap sample_world) sample_array = Some sample_series ∧
  ∃ (w' : world) (l' : locals),
    @evaluate_models persistence plain_mse sample_array [0; 1; 4]%Z [0; 1; 3]%Z [0; 1; 2]%Z
      (sample_world, sample_locals) = ((w', l'), inr tt) ∧
    first_seen_min (@arima_mse persistence plain_mse (F64.to_float32 <$> sample_series))
      (grid [0; 1; 4]%Z [0; 1; 3]%Z [0; 1; 2]%Z) l' ∧
    best_cfg l' = Some (1, 0, 0)%Z.
Proof.
  split; [vm_compute; reflexivity|].
  destruct (@grid_search_reports_first_seen_minimiser persistence plain_mse
              sample_world sample_locals sample_array sample_series
              [0; 1; 4]%Z [0; 1; 3]%Z [0; 1; 2]%Z)
    as (w' & l' & Hrun & Hmin & _); [vm_compute; reflexivity|].
  exists w', l'. split; [exact Hrun|]. split; [exact Hmin|].
  assert (Hl : snd (fst (@evaluate_models persistence plain_mse sample_array
                           [0; 1; 4]%Z [0; 1; 3]%Z [0; 1; 2]%Z
                           (sample_world, sample_locals))) = l')
    by (rewrite Hrun; reflexivity).
  rewrite <- Hl. vm_compute. reflexivity.
Defined.

(** C2.  [evaluate_arima_model] walks the held-out part [test = X[size:]] one
    observation at a time.  Prediction number [t] is the one-step forecast of a
    model fitted on [train ++ take t test], the training prefix followed by the
    held-out observations already consumed; the predictions are recorded in
    order, one per held-out observation, and the history has grown to
    [train ++ test] when the walk ends.  The value returned is exactly
    [mean_squared_error test predictions]. *)
Theorem evaluate_arima_model_walks_forward `{Statsmodels, Sklearn}
    (w : world) (X : ndarray) (xs : list spec_float) (o : order) (size : Z) :
  nd_contents (heap w) X = Some xs →
  train_size (Z.of_nat (length xs)) = inr size →
  let train := py_slice xs 0 (Some size) in
  let test := py_slice xs size None in
  ∃ w' : world,
    evaluate_arima_model X o w
      = (w', preds ← forecasts train test o; mean_squared_error test preds) ∧
    match forecasts train test o with
    | inl e => walk_forward X o w = (w', inl e)
    | inr preds =>
        length preds = length test ∧
        (∀ (t : nat) (yhat : spec_float),
            preds !! t = Some yhat → one_step (train ++ take t test) o = inr yhat) ∧
        ∃ predictions history : loc,
          walk_forward X o w = (w', inr (np_slice X size None, predictions)) ∧
          heap w' !! predictions = Some preds ∧
          heap w' !! history = Some (train ++ test)
    end.
Proof.
  intros HX Hsize train test.
  destruct (walk_forward_run w X xs o HX) as (w' & r & Hwalk & _ & _ & Hres).
  destruct (evaluate_arima_model_run w X xs o HX) as (w'' & Hrun & _ & _ & Hw).
  rewrite Hwalk in Hw. simpl in Hw. subst w''.
  exists w'. split.
  { rewrite Hrun. unfold arima_mse. rewrite Hsize. reflexivity. }
  rewrite Hsize in Hres. fold train test in Hres.
  destruct (forecasts train test o) as [e|preds] eqn:Hf.
  - subst r. exact Hwalk.
  - destruct Hres as (lp & lh & -> & Hlp & _ & Hlh & _).
    destruct (mapM_inr_lookup _ _ _ Hf) as [Hlen Hlk].
    rewrite length_seq in Hlen. split; [exact Hlen|]. split.
    + intros t yhat Ht. apply (Hlk t t yhat); [|exact Ht].
      apply lookup_seq. split; [reflexivity|].
      rewrite <- Hlen. eapply lookup_lt_Some; eassumption.
    + exists lp, lh. auto.
Qed.

Lemma evaluate_arima_model_walks_forward_witness :
  nd_contents (heap sample_world) sample_array = Some sample_series ∧
  train_size (Z.of_nat (length sample_series)) = inr 23%Z ∧
  ∃ w' : world,
    @evaluate_arima_model persistence plain_mse sample_array (1, 0, 0)%Z sample_world
    = (w', preds ← @forecasts persistence (py_slice sample_series 0 (Some 23%Z))
                     (py_slice sample_series 23 None) (1, 0, 0)%Z;
           @mean_squared_error plain_mse (py_slice sample_series 23 None) preds).
Proof.
  split; [vm_compute; reflexivity|]. split; [vm_compute; reflexivity|].
  destruct (@evaluate_arima_model_walks_forward persistence plain_mse
              sample_world sample_array sample_series (1, 0, 0)%Z 23%Z)
    as (w' & Hrun & _); [vm_compute; reflexivity|vm_compute; reflexivity|].
  exists w'. exact Hrun.
Defined.

(** C3 (as stated, refuted).  At length 213238618720203 the product
    [len(X) * 0.66] rounds up to the next integer, so [train_size] is
    140737488355334 while the floor of 0.66 times the length is
    140737488355333. *)
Lemma train_size_above_floor_at_213238618720203 :
  train_size 213238618720203 ≠ inr (66 * 213238618720203 / 100)%Z.
Proof. vm_compute. intros Heq. discriminate Heq. Qed.

(** C3 (amended).  For every sequence of fewer than 213238618720203
    observations the training part has [floor(0.66 * n)] elements and the
    held-out part the remaining [n - floor(0.66 * n)]; for 36 observations
    these are 23 and 13. *)
Theorem split_sizes_are_floor (xs : list spec_float) :
  (Z.of_nat (length xs) < 213238618720203)%Z →
  let n := Z.of_nat (length xs) in
  ∃ size : Z,
    train_size n = inr size ∧
    size = (66 * n / 100)%Z ∧
    Z.of_nat (length (py_slice xs 0 (Some size))) = (66 * n / 100)%Z ∧
    Z.of_nat (length (py_slice xs size None)) = (n - 66 * n / 100)%Z ∧
    (length xs = 36 →
     length (py_slice xs 0 (Some size)) = 23 ∧ length (py_slice xs size None) = 13).
Proof.
  intros Hn n. exists (66 * n / 100)%Z.
  assert (Hsize : (0 ≤ 66 * n / 100 ≤ n)%Z).
  { split; [apply Z.div_pos; lia|]. apply Z.div_le_upper_bound; lia. }
  assert (Htrain : Z.of_nat (length (py_slice xs 0 (Some (66 * n / 100)%Z))) = (66 * n / 100)%Z).
  { unfold py_slice, slice_index. fold n.
    destruct (Z.ltb_spec 0 0) as [?|_]; [lia|].
    destruct (Z.ltb_spec (66 * n / 100) 0) as [?|_]; [lia|].
    rewrite length_take, length_drop. lia. }
  assert (Htest : Z.of_nat (length (py_slice xs (66 * n / 100)%Z None)) = (n - 66 * n / 100)%Z).
  { unfold py_slice, slice_index. fold n.
    destruct (Z.ltb_spec (66 * n / 100) 0) as [?|_]; [lia|].
    rewrite length_take, length_drop. lia. }
  split; [apply train_size_floor; lia|]. split; [reflexivity|].
  split; [exact Htrain|]. split; [exact Htest|].
  intros H36. assert (Hn36 : n = 36%Z) by lia.
  rewrite Hn36 in Htrain, Htest. rewrite Hn36.
  change (66 * 36 / 100)%Z with 23%Z in *. lia.
Qed.

Lemma split_sizes_are_floor_witness :
  (Z.of_nat (length sample_series) < 213238618720203)%Z ∧
  ∃ size : Z,
    train_size (Z.of_nat (length sample_series)) = inr size ∧
    length (py_slice sample_series 0 (Some size)) = 23 ∧
    length (py_slice sample_series size None) = 13.
Proof.
  split; [vm_compute; reflexivity|].
  destruct (split_sizes_are_floor sample_series) as (size & Hts & _ & _ & _ & H36);
    [vm_compute; reflexivity|].
  exists size. split; [exact Hts|]. apply H36. reflexivity.
Defined.

(** C4.  When the fit at step [t] of the walk raises [e] (the earlier steps
    having succeeded), [evaluate_arima_model] returns that exception to its
    caller: it handles nothing itself.  Whatever exception the evaluation of an
    order raises, the [try] statement of [evaluate_models] ends normally with
    [best_score] and [best_cfg] as they were and nothing printed, and the
    loops go on with the next order. *)
Theorem failures_propagate_and_are_skipped `{Statsmodels, Sklearn}
    (w : world) (l : locals) (X : ndarray) (xs : list spec_float) (o : order)
    (size : Z) (t : nat) (e : exn) :
  nd_contents (heap w) X = Some xs →
  train_size (Z.of_nat (length xs)) = inr size →
  let train := py_slice xs 0 (Some size) in
  let test := py_slice xs size None in
  t < length test →
  (∀ t' : nat, t' < t → ∃ yhat, one_step (train ++ take t' test) o = inr yhat) →
  one_step (train ++ take t test) o = inl e →
  snd (evaluate_arima_model X o w) = inl e ∧
  (∀ e' : exn, snd (evaluate_arima_model X o w) = inl e' →
     ∃ w' : world,
       evaluate_order X o (w, l) = ((w', l), inr tt) ∧ stdout w' = stdout w) ∧
  (∀ rest : list order,
     for_each (o :: rest) (evaluate_order X) (w, l)
     = for_each rest (evaluate_order X) (fst (evaluate_order X o (w, l)))).
Proof.
  intros HX Hsize train test Ht Hbefore Hfail.
  destruct (evaluate_arima_model_run w X xs o HX) as (w' & Hrun & _ & _ & _).
  destruct (evaluate_order_run w l X xs o HX) as (w1 & Hord & Hout & _).
  assert (Hf : forecasts train test o = inl e).
  { unfold forecasts. apply (mapM_first_failure _ _ t t e); [|exact Hfail|].
    - apply lookup_seq. split; [reflexivity|exact Ht].
    - intros j y Hj [-> _]%lookup_seq. apply Hbefore. exact Hj. }
  assert (Hmse : arima_mse xs o = inl e).
  { unfold arima_mse. rewrite Hsize.
    change ((forecasts train test o ≫= mean_squared_error test) = inl e).
    rewrite Hf. reflexivity. }
  split; [rewrite Hrun; exact Hmse|]. split.
  - intros e' He'. rewrite Hrun in He'. simpl in He'.
    exists w1. rewrite Hord, Hout. unfold update, progress_lines. simpl.
    rewrite He'. rewrite app_nil_r. split; reflexivity.
  - intros rest. simpl for_each. rewrite run_bind, Hord. reflexivity.
Qed.

Lemma failures_propagate_and_are_skipped_witness :
  nd_contents (heap sample_world) sample_array = Some sample_series ∧
  train_size (Z.of_nat (length sample_series)) = inr 23%Z ∧
  2 < length (py_slice sample_series 23 None) ∧
  (∀ t' : nat, t' < 2 →
     ∃ yhat, @one_step persistence
               (py_slice sample_series 0 (Some 23%Z) ++ take t' (py_slice sample_series 23 None))
               (0, 0, 2)%Z = inr yhat) ∧
  @one_step persistence
    (py_slice sample_series 0 (Some 23%Z) ++ take 2 (py_slice sample_series 23 None))
    (0, 0, 2)%Z = inl LinAlgError ∧
  snd (@evaluate_arima_model persistence plain_mse sample_array (0, 0, 2)%Z sample_world)
    = inl LinAlgError.
Proof.
  assert (Hbefore : ∀ t' : nat, t' < 2 →
            ∃ yhat, @one_step persistence
                      (py_slice sample_series 0 (Some 23%Z)
                       ++ take t' (py_slice sample_series 23 None))
                      (0, 0, 2)%Z = inr yhat).
  { intros t' Ht'. destruct t' as [|[|t']]; [eexists; vm_compute; reflexivity..|lia]. }
  split; [vm_compute; reflexivity|]. split; [vm_compute; reflexivity|].
  split; [vm_compute; lia|]. split; [exact Hbefore|]. split; [vm_compute; reflexivity|].
  apply (@failures_propagate_and_are_skipped persistence plain_mse
           sample_world sample_locals sample_array sample_series (0, 0, 2)%Z 23%Z 2
           LinAlgError).
  - vm_compute; reflexivity.
  - vm_compute; reflexivity.
  - vm_compute; lia.
  - exact Hbefore.
  - vm_compute; reflexivity.
Defined.

(** C5.  When the evaluation of every candidate order fails,
    [evaluate_models] ends with [best_score] equal to infinity and [best_cfg]
    equal to [None], prints no progress line, and its last statement does not
    raise: [%s] accepts [None] and [%.3f] accepts infinity, so the summary
    line reads [Best ARIMANone MSE=inf]. *)
Theorem all_orders_fail_summary `{Statsmodels, Sklearn}
    (w : world) (l0 : locals) (dataset : ndarray) (xs : list spec_float)
    (p_values d_values q_values : list Z) :
  nd_contents (heap w) dataset = Some xs →
  (∀ c : order, c ∈ grid p_values d_values q_values →
     ∃ e : exn, arima_mse (F64.to_float32 <$> xs) c = inl e) →
  ∃ w' : world,
    evaluate_models dataset p_values d_values q_values (w, l0)
    = ((w', {| best_score := F64.inf; best_cfg := None |}), inr tt) ∧
    stdout w' = stdout w ++ [PyStr "Best ARIMANone MSE=inf"].
Proof.
  intros HX Hfail.
  destruct (evaluate_models_run w l0 dataset xs p_values d_values q_values HX)
    as (w' & Hrun & Hout & _).
  destruct (search_all_fail _ _ {| best_score := F64.inf; best_cfg := None |} Hfail)
    as [Hsearch Hlines].
  rewrite Hsearch in Hrun, Hout. rewrite Hlines in Hout.
  exists w'. split; [exact Hrun|exact Hout].
Qed.

Lemma all_orders_fail_summary_witness :
  nd_contents (heap sample_world) sample_array = Some sample_series ∧
  (∀ c : order, c ∈ grid [0; 1]%Z [0; 1]%Z [0; 1]%Z →
     ∃ e : exn,
       @arima_mse never_converges plain_mse (F64.to_float32 <$> sample_series) c = inl e) ∧
  ∃ w' : world,
    @evaluate_models never_converges plain_mse sample_array [0; 1]%Z [0; 1]%Z [0; 1]%Z
      (sample_world, sample_locals)
    = ((w', {| best_score := F64.inf; best_cfg := None |}), inr tt) ∧
    stdout w' = stdout sample_world ++ [PyStr "Best ARIMANone MSE=inf"].
Proof.
  assert (Hfail : ∀ c : order, c ∈ grid [0; 1]%Z [0; 1]%Z [0; 1]%Z →
            ∃ e : exn,
              @arima_mse never_converges plain_mse (F64.to_float32 <$> sample_series) c
              = inl e).
  { intros c _. exists LinAlgError. vm_compute. reflexivity. }
  split; [vm_compute; reflexivity|]. split; [exact Hfail|].
  apply (@all_orders_fail_summary never_converges plain_mse sample_world sample_locals
           sample_array sample_series [0; 1]%Z [0; 1]%Z [0; 1]%Z);
    [vm_compute; reflexivity|exact Hfail].
Defined.

(** C7.  [evaluate_arima_model] is deterministic in the series and the order:
    two invocations on arrays with the same elements, in whatever state the
    store is, produce the same list of predictions and return the same error
    (or raise the same exception); in particular an invocation repeated right
    after the first one returns what the first one returned.  The libraries
    are functions of their arguments. *)
Theorem evaluate_arima_model_deterministic `{Statsmodels, Sklearn}
    (w1 w2 : world) (X1 X2 : ndarray) (xs : list spec_float) (o : order) :
  nd_contents (heap w1) X1 = Some xs →
  nd_contents (heap w2) X2 = Some xs →
  snd (evaluate_arima_model X1 o w1) = snd (evaluate_arima_model X2 o w2) ∧
  match walk_forward X1 o w1, walk_forward X2 o w2 with
  | (w1', inr (_, predictions1)), (w2', inr (_, predictions2)) =>
      ∃ preds : list spec_float,
        heap w1' !! predictions1 = Some preds ∧ heap w2' !! predictions2 = Some preds
  | (_, inl e1), (_, inl e2) => e1 = e2
  | _, _ => False
  end ∧
  snd (evaluate_arima_model X1 o (fst (evaluate_arima_model X1 o w1)))
  = snd (evaluate_arima_model X1 o w1).
Proof.
  intros HX1 HX2.
  destruct (evaluate_arima_model_run w1 X1 xs o HX1) as (w1' & Hrun1 & _ & Hsub1 & _).
  destruct (evaluate_arima_model_run w2 X2 xs o HX2) as (w2' & Hrun2 & _ & _ & _).
  split; [rewrite Hrun1, Hrun2; reflexivity|]. split.
  - destruct (walk_forward_run w1 X1 xs o HX1) as (v1 & r1 & Hwalk1 & _ & _ & Hres1).
    destruct (walk_forward_run w2 X2 xs o HX2) as (v2 & r2 & Hwalk2 & _ & _ & Hres2).
    rewrite Hwalk1, Hwalk2.
    destruct (train_size (Z.of_nat (length xs))) as [e|size]; [subst r1 r2; reflexivity|].
    destruct (forecasts (py_slice xs 0 (Some size)) (py_slice xs size None) o)
      as [e|preds]; [subst r1 r2; reflexivity|].
    destruct Hres1 as (lp1 & _ & -> & Hlp1 & _).
    destruct Hres2 as (lp2 & _ & -> & Hlp2 & _).
    exists preds. split; assumption.
  - rewrite Hrun1. simpl fst.
    destruct (evaluate_arima_model_run w1' X1 xs o) as (w1'' & Hrun1' & _).
    { eapply nd_contents_mono; eassumption. }
    rewrite Hrun1'. reflexivity.
Qed.

Lemma evaluate_arima_model_deterministic_witness :
  nd_contents (heap sample_world) sample_array = Some sample_series ∧
  snd (@evaluate_arima_model persistence plain_mse sample_array (1, 1, 0)%Z
         (fst (@evaluate_arima_model persistence plain_mse sample_array (1, 1, 0)%Z
                 sample_world)))
  = snd (@evaluate_arima_model persistence plain_mse sample_array (1, 1, 0)%Z sample_world).
Proof.
  split; [vm_compute; reflexivity|].
  apply (@evaluate_arima_model_deterministic persistence plain_mse
           sample_world sample_world sample_array sample_array sample_series (1, 1, 0)%Z);
    vm_compute; reflexivity.
Defined.

(** C10.  Neither operation changes the caller's series.  Every object that
    exists when [evaluate_arima_model] or [evaluate_models] is called holds
    the same elements when the call ends, normally or not; in particular [X]
    still denotes [xs].  The history that the walk grows is an object that did
    not exist before the call, and [dataset.astype('float32')] yields an
    array on a buffer that did not exist before, which holds the rounded copy
    while the caller's array is as it was. *)
Theorem caller_series_is_not_mutated `{Statsmodels, Sklearn}
    (w : world) (l0 : locals) (X : ndarray) (xs : list spec_float) (o : order)
    (p_values d_values q_values : list Z) :
  nd_contents (heap w) X = Some xs →
  (let w' := fst (evaluate_arima_model X o w) in
   heap w ⊆ heap w' ∧ nd_contents (heap w') X = Some xs) ∧
  (∀ (w' : world) (test : ndarray) (predictions : loc),
     walk_forward X o w = (w', inr (test, predictions)) →
     ∃ (history : loc) (size : Z),
       heap w !! history = None ∧
       heap w' !! history = Some (py_slice xs 0 (Some size) ++ py_slice xs size None)) ∧
  (let w' := fst (fst (evaluate_models X p_values d_values q_values (w, l0))) in
   heap w ⊆ heap w' ∧ nd_contents (heap w') X = Some xs) ∧
  (∃ (w1 : world) (dataset : ndarray),
     astype_float32 X w = (w1, inr dataset) ∧
     heap w !! nd_buf dataset = None ∧
     nd_contents (heap w1) dataset = Some (F64.to_float32 <$> xs) ∧
     nd_contents (heap w1) X = Some xs).
Proof.
  intros HX. split; [|split; [|split]].
  - destruct (evaluate_arima_model_run w X xs o HX) as (w' & Hrun & _ & Hsub & _).
    rewrite Hrun. simpl. split; [exact Hsub|]. eapply nd_contents_mono; eassumption.
  - intros w' test predictions Hwalk.
    destruct (walk_forward_run w X xs o HX) as (v & r & Hwalk' & _ & _ & Hres).
    rewrite Hwalk in Hwalk'. injection Hwalk' as <- <-.
    destruct (train_size (Z.of_nat (length xs))) as [e|size]; [discriminate|].
    destruct (forecasts (py_slice xs 0 (Some size)) (py_slice xs size None) o)
      as [e|preds]; [discriminate|].
    destruct Hres as (lp & lh & _ & _ & _ & Hlh & Hfresh).
    exists lh, size. split; assumption.
  - destruct (evaluate_models_run w l0 X xs p_values d_values q_values HX)
      as (w' & Hrun & _ & Hsub).
    rewrite Hrun. simpl. split; [exact Hsub|]. eapply nd_contents_mono; eassumption.
  - destruct (astype_float32_run w X xs HX) as (w1 & X' & Hrun & HX' & Hfresh & _ & Hsub).
    exists w1, X'. split; [exact Hrun|]. split; [exact Hfresh|]. split; [exact HX'|].
    eapply nd_contents_mono; eassumption.
Qed.

Lemma caller_series_is_not_mutated_witness :
  nd_contents (heap sample_world) sample_array = Some sample_series ∧
  nd_contents
    (heap (fst (fst (@evaluate_models persistence plain_mse sample_array
                       [0; 1]%Z [0; 1]%Z [0; 1]%Z (sample_world, sample_locals)))))
    sample_array = Some sample_series.
Proof.
  split; [vm_compute; reflexivity|].
  apply (@caller_series_is_not_mutated persistence plain_mse sample_world sample_locals
           sample_array sample_series (0, 0, 0)%Z [0; 1]%Z [0; 1]%Z [0; 1]%Z).
  vm_compute; reflexivity.
Defined.

(** C8 (as stated, refuted).  [time.time()] reads the wall clock.  When the
    clock is set back during the fit (first reading 10, second reading 5), the
    recorded duration is -5. *)
Lemma duration_negative_when_clock_steps_back :
  results (fst (@timing_sweep always_fits [1]%Z (sample_timer stepped_back_clock)))
    = [PyFloat (F64.of_int (-5))] ∧
  F64.nonneg (F64.of_int (-5)) = false.
Proof. split; vm_compute; reflexivity. Qed.

(** C8 (amended).  When every fit returns, the sweep ends normally and
    [results] holds exactly one sample per requested thread count, in request
    order: sample [i] is the difference of the two clock readings taken around
    the fit for the [i]-th count.  A sample is non-negative provided the
    reading after its fit is not below the reading before it. *)
Theorem timing_sweep_one_sample_per_count `{XGBoost}
    (num_threads : list Z) (w : timer_world) :
  Forall (λ n, XGBClassifier_fit n = inr tt) num_threads →
  ∃ w' : timer_world,
    timing_sweep num_threads w = (w', inr tt) ∧
    length (results w') = length num_threads ∧
    (∀ i : nat, i < length num_threads →
       results w' !! i = Some (PyFloat (duration (clock w) (ticks w) i))) ∧
    (∀ i : nat, i < length num_threads →
       F64.finite (clock w (ticks w + 2 * i)) = true →
       F64.finite (clock w (ticks w + 2 * i + 1)) = true →
       F64.leb (clock w (ticks w + 2 * i)) (clock w (ticks w + 2 * i + 1)) = true →
       F64.nonneg (duration (clock w) (ticks w) i) = true).
Proof.
  intros Hfit.
  destruct (timing_sweep_run num_threads w Hfit) as (w' & Hrun & Hres & _).
  exists w'. split; [exact Hrun|].
  split; [rewrite Hres, !length_fmap, length_seq; reflexivity|]. split.
  - intros i Hi. rewrite Hres, !list_lookup_fmap, lookup_seq_lt by exact Hi. reflexivity.
  - intros i _ Hf1 Hf2 Hle. unfold duration. apply sub_nonneg; assumption.
Qed.

Lemma timing_sweep_one_sample_per_count_witness :
  Forall (λ n, @XGBClassifier_fit always_fits n = inr tt) [1; 2; 3; 4]%Z ∧
  ∃ w' : timer_world,
    @timing_sweep always_fits [1; 2; 3; 4]%Z (sample_timer steady_clock) = (w', inr tt) ∧
    length (results w') = 4 ∧
    results w' !! 2 = Some (PyFloat (duration steady_clock 0 2)) ∧
    F64.nonneg (duration steady_clock 0 2) = true.
Proof.
  assert (Hfit : Forall (λ n, @XGBClassifier_fit always_fits n = inr tt) [1; 2; 3; 4]%Z)
    by (repeat constructor).
  split; [exact Hfit|].
  destruct (@timing_sweep_one_sample_per_count always_fits [1; 2; 3; 4]%Z
              (sample_timer steady_clock) Hfit) as (w' & Hrun & Hlen & Hlk & Hpos).
  exists w'. split; [exact Hrun|]. split; [exact Hlen|].
  split; [apply (Hlk 2); simpl; lia|].
  apply (Hpos 2); [simpl; lia|vm_compute; reflexivity..].
Defined.

(** C9 (as stated, refuted).  What the loop appends to [results] is the
    duration alone: after a sweep over the single count 1 the list holds one
    float, not a pair that contains the count. *)
Lemma results_hold_durations_not_pairs :
  results (fst (@timing_sweep always_fits [1]%Z (sample_timer steady_clock)))
    = [PyFloat (F64.of_int 1)] ∧
  ¬ ∃ e : spec_float,
      results (fst (@timing_sweep always_fits [1]%Z (sample_timer steady_clock))) !! 0
      = Some (PyTuple [PyInt 1; PyFloat e]).
Proof.
  split; [vm_compute; reflexivity|].
  intros [e He]. vm_compute in He. discriminate He.
Qed.

(** C9 (amended).  For each requested count the loop prints the pair
    (count, duration) and appends the duration alone to [results]; the count
    that belongs to [results[i]] is [num_threads[i]], the [i]-th printed pair
    being [(num_threads[i], results[i])]. *)
Theorem timing_samples_pair_up_by_position `{XGBoost}
    (num_threads : list Z) (w : timer_world) :
  Forall (λ n, XGBClassifier_fit n = inr tt) num_threads →
  ∃ w' : timer_world,
    timing_sweep num_threads w = (w', inr tt) ∧
    ∀ (i : nat) (n : Z), num_threads !! i = Some n →
      ∃ elapsed : spec_float,
        results w' !! i = Some (PyFloat elapsed) ∧
        printed w' !! (length (printed w) + i) = Some (PyTuple [PyInt n; PyFloat elapsed]).
Proof.
  intros Hfit.
  destruct (timing_sweep_run num_threads w Hfit) as (w' & Hrun & Hres & Hpr).
  exists w'. split; [exact Hrun|].
  intros i n Hn. pose proof (lookup_lt_Some _ _ _ Hn) as Hi.
  exists (duration (clock w) (ticks w) i).
  assert (Hd : (duration (clock w) (ticks w) <$> seq 0 (length num_threads)) !! i
               = Some (duration (clock w) (ticks w) i)).
  { rewrite list_lookup_fmap, lookup_seq_lt by exact Hi. reflexivity. }
  split.
  - rewrite Hres, list_lookup_fmap, Hd. reflexivity.
  - rewrite Hpr, lookup_app_r by lia.
    replace (length (printed w) + i - length (printed w)) with i by lia.
    rewrite lookup_zip_with, Hn. simpl. rewrite Hd. reflexivity.
Qed.

Lemma timing_samples_pair_up_by_position_witness :
  Forall (λ n, @XGBClassifier_fit always_fits n = inr tt) [1; 2; 3; 4]%Z ∧
  ∃ w' : timer_world,
    @timing_sweep always_fits [1; 2; 3; 4]%Z (sample_timer steady_clock) = (w', inr tt) ∧
    ∃ elapsed : spec_float,
      results w' !! 2 = Some (PyFloat elapsed) ∧
      printed w' !! 2 = Some (PyTuple [PyInt 3; PyFloat elapsed]).
Proof.
  assert (Hfit : Forall (λ n, @XGBClassifier_fit always_fits n = inr tt) [1; 2; 3; 4]%Z)
    by (repeat constructor).
  split; [exact Hfit|].
  destruct (@timing_samples_pair_up_by_position always_fits [1; 2; 3; 4]%Z
              (sample_timer steady_clock) Hfit) as (w' & Hrun & Hpairs).
  exists w'. split; [exact Hrun|]. apply (Hpairs 2 3%Z). reflexivity.
Defined.

(** The recorded run, replayed: with the errors that the notebook records,
    the search over the notebook's grid ends on the order (4, 2, 1), and the
    lines are those of the recorded output. *)
Example recorded_run_replay :
  let cfgs := grid [0; 1; 2; 4; 6; 8; 10]%Z [0; 1; 2]%Z [0; 1; 2]%Z in
  let l := search recorded_score cfgs {| best_score := F64.inf; best_cfg := None |} in
  best_cfg l = Some (4, 2, 1)%Z ∧
  summary_line l = PyStr "Best ARIMA(4, 2, 1) MSE=4694.872" ∧
  take 3 (progress_lines recorded_score cfgs)
  = [PyStr "ARIMA(0, 0, 0) MSE=52425.268"; PyStr "ARIMA(0, 0, 1) MSE=38145.259";
     PyStr "ARIMA(0, 0, 2) MSE=23989.598"] ∧
  length (progress_lines recorded_score cfgs) = 21.
Proof. vm_compute. repeat split. Qed.

(** * Part IV: further properties of the code *)

(** ** The date parser *)

Section Parser.

Lemma digit_of_Some (c : ascii) (d : Z) :
  digit_of c = Some d → (0 ≤ d ≤ 9)%Z ∧ c = ascii_of_nat (Z.to_nat d + 48).
Proof.
  unfold digit_of. intros Hd.
  destruct (Nat.leb_spec 48 (nat_of_ascii c)) as [Hlo|]; [|discriminate].
  destruct (Nat.leb_spec (nat_of_ascii c) 57) as [Hhi|]; [|discriminate].
  simpl in Hd. injection Hd as <-. split; [lia|].
  replace (Z.to_nat (Z.of_nat (nat_of_ascii c) - 48) + 48) with (nat_of_ascii c) by lia.
  symmetry. apply ascii_nat_embedding.
Qed.

Lemma digit_cases (d : Z) :
  (0 ≤ d ≤ 9)%Z →
  d = 0%Z ∨ d = 1%Z ∨ d = 2%Z ∨ d = 3%Z ∨ d = 4%Z ∨
  d = 5%Z ∨ d = 6%Z ∨ d = 7%Z ∨ d = 8%Z ∨ d = 9%Z.
Proof. lia. Qed.

Ltac each_digit H :=
  apply digit_cases in H;
  repeat (destruct H as [H|H]); subst.

(** What [%m] accepts as the whole of its input is a month in one of its
    two spellings. *)
Lemma match_month_spelling (s : string) (m : Z) :
  match_month s = Some (m, EmptyString) →
  (1 ≤ m ≤ 12)%Z ∧ ∃ padded : bool, s = month_text m padded.
Proof.
  destruct s as [|c1 rest1]; [discriminate|]. unfold match_month.
  destruct (digit_of c1) as [d1|] eqn:H1; [|discriminate].
  apply digit_of_Some in H1 as [Hd1 ->].
  destruct rest1 as [|c2 rest2].
  - destruct (Z.leb_spec 1 d1) as [Hpos|]; [|discriminate].
    intros Heq. injection Heq as <-. split; [lia|]. exists false.
    each_digit Hd1; try lia; reflexivity.
  - destruct (digit_of c2) as [d2|] eqn:H2.
    2:{ destruct (1 <=? d1)%Z; intros Heq; discriminate Heq. }
    apply digit_of_Some in H2 as [Hd2 ->].
    destruct (Z.eqb_spec d1 1) as [->|Hne1].
    + destruct (Z.leb_spec d2 2) as [Hle|Hgt]; simpl.
      * intros Heq. injection Heq as <- ->. split; [lia|]. exists false.
        each_digit Hd2; try lia; reflexivity.
      * intros Heq. discriminate Heq.
    + destruct (Z.eqb_spec d1 0) as [->|Hne0]; simpl.
      * destruct (Z.leb_spec 1 d2) as [Hle|Hgt]; simpl.
        -- intros Heq. injection Heq as <- ->. split; [lia|]. exists true.
           each_digit Hd2; try lia; reflexivity.
        -- intros Heq. discriminate Heq.
      * destruct (1 <=? d1)%Z; intros Heq; discriminate Heq.
Qed.

(** X1.  [parser] reads every text made of one digit [d], a hyphen and a
    month from 1 to 12, written with or without a leading zero, as the first
    day of that month of the year [1900 + d], at midnight. *)
Theorem parser_reads_year_digit_and_month (d m : Z) (padded : bool) :
  (0 ≤ d ≤ 9)%Z → (1 ≤ m ≤ 12)%Z →
  parser (pretty d +:+ "-" +:+ month_text m padded)
  = inr {| dt_year := 1900 + d; dt_month := m; dt_day := 1;
           dt_hour := 0; dt_minute := 0; dt_second := 0 |}.
Proof.
  intros Hd Hm. each_digit Hd.
  all: assert (Hc : (m = 1 ∨ m = 2 ∨ m = 3 ∨ m = 4 ∨ m = 5 ∨ m = 6 ∨ m = 7 ∨ m = 8 ∨
                     m = 9 ∨ m = 10 ∨ m = 11 ∨ m = 12)%Z) by lia.
  all: repeat (destruct Hc as [Hc|Hc]); subst m; destruct padded; vm_compute; reflexivity.
Qed.

Lemma parser_reads_year_digit_and_month_witness :
  parser "3-07" = inr {| dt_year := 1903; dt_month := 7; dt_day := 1;
                         dt_hour := 0; dt_minute := 0; dt_second := 0 |}.
Proof. apply (parser_reads_year_digit_and_month 3 7 true); lia. Defined.

(** X2.  [parser] accepts nothing else: whenever it returns a date, its
    argument is one digit, a hyphen and a month in one of the two spellings,
    and the date is the first day of that month in a year from 1900 to 1909.
    Every other text (the empty one, a two-digit year, a month 0 or 13, text
    after the month) raises. *)
Theorem parser_accepts_nothing_else (x : string) (dt : datetime) :
  parser x = inr dt →
  ∃ (d m : Z) (padded : bool),
    (0 ≤ d ≤ 9)%Z ∧ (1 ≤ m ≤ 12)%Z ∧
    x = pretty d +:+ "-" +:+ month_text m padded ∧
    dt = {| dt_year := 1900 + d; dt_month := m; dt_day := 1;
            dt_hour := 0; dt_minute := 0; dt_second := 0 |}.
Proof.
  unfold parser. destruct x as [|c4 [|c5 rest]]; [discriminate..|].
  change ("190" +:+ String c4 (String c5 rest))
    with (String "1" (String "9" (String "0" (String c4 (String c5 rest))))).
  unfold strptime_Y_m.
  change (digit_of "1") with (Some 1%Z). change (digit_of "9") with (Some 9%Z).
  change (digit_of "0") with (Some 0%Z).
  destruct (digit_of c4) as [d|] eqn:H4; [|discriminate].
  apply digit_of_Some in H4 as [Hd ->].
  destruct (Ascii.eqb_spec c5 "-") as [->|]; [|discriminate].
  destruct (match_month rest) as [[m [|c tail]]|] eqn:Hm; [|discriminate..].
  apply match_month_spelling in Hm as [Hm [padded ->]].
  destruct (Z.leb_spec 1 (1000 * 1 + 100 * 9 + 10 * 0 + d)) as [_|]; [|lia].
  intros Heq. injection Heq as <-.
  exists d, m, padded. split; [exact Hd|]. split; [exact Hm|]. split.
  - each_digit Hd; reflexivity.
  - f_equal; lia.
Qed.

Lemma parser_accepts_nothing_else_witness :
  parser "2-11" = inr {| dt_year := 1902; dt_month := 11; dt_day := 1;
                         dt_hour := 0; dt_minute := 0; dt_second := 0 |} ∧
  ∃ (d m : Z) (padded : bool),
    "2-11" = pretty d +:+ "-" +:+ month_text m padded ∧ (1900 + d = 1902)%Z ∧ m = 11%Z.
Proof.
  split; [vm_compute; reflexivity|].
  destruct (parser_accepts_nothing_else "2-11"
              {| dt_year := 1902; dt_month := 11; dt_day := 1;
                 dt_hour := 0; dt_minute := 0; dt_second := 0 |})
    as (d & m & padded & _ & _ & Hx & Hdt); [vm_compute; reflexivity|].
  exists d, m, padded. split; [exact Hx|].
  injection Hdt as Hy Hmo. split; [symmetry; exact Hy|symmetry; exact Hmo].
Defined.

End Parser.

(** ** The split and the walk of [evaluate_arima_model] *)

Section Split.

Lemma py_slice_train (xs : list spec_float) (size : Z) :
  (0 ≤ size ≤ Z.of_nat (length xs))%Z →
  py_slice xs 0 (Some size) = take (Z.to_nat size) xs.
Proof.
  intros Hs. unfold py_slice, slice_index.
  destruct (Z.ltb_spec 0 0) as [?|_]; [lia|].
  destruct (Z.ltb_spec size 0) as [?|_]; [lia|].
  rewrite Z.min_l by lia. rewrite Z.min_l by lia.
  rewrite Z.sub_0_r. reflexivity.
Qed.

Lemma py_slice_test (xs : list spec_float) (size : Z) :
  (0 ≤ size ≤ Z.of_nat (length xs))%Z →
  py_slice xs size None = drop (Z.to_nat size) xs.
Proof.
  intros Hs. unfold py_slice, slice_index.
  destruct (Z.ltb_spec size 0) as [?|_]; [lia|].
  rewrite Z.min_l by lia. apply take_ge. rewrite length_drop. lia.
Qed.

(** The history of step [t] is a prefix of the series. *)
Lemma history_is_prefix (xs : list spec_float) (size : Z) (t : nat) :
  (0 ≤ size ≤ Z.of_nat (length xs))%Z →
  py_slice xs 0 (Some size) ++ take t (py_slice xs size None)
  = take (Z.to_nat size + t) xs.
Proof.
  intros Hs. rewrite py_slice_train, py_slice_test by exact Hs.
  apply take_take_drop.
Qed.

Lemma floor_66_range (n : Z) : (0 ≤ n → 0 ≤ 66 * n / 100 ≤ n)%Z.
Proof. intros Hn. Z.div_mod_to_equations. lia. Qed.

End Split.

Section MapMFailure.
Context {A B : Type} (f : A → exn + B).

Lemma mapM_inl_lookup (l : list A) (e : exn) :
  mapM f l = inl e → ∃ (i : nat) (x : A), l !! i = Some x ∧ f x = inl e.
Proof.
  induction l as [|a l IH]; simpl; intros Hm; [discriminate|].
  destruct (f a) as [e'|b] eqn:Hfa; simpl in Hm.
  - injection Hm as ->. exists 0, a. split; [reflexivity|exact Hfa].
  - destruct (mapM f l) as [e'|bs]; simpl in Hm; [|discriminate].
    injection Hm as ->. destruct (IH eq_refl) as (i & x & Hi & Hx).
    exists (S i), x. split; assumption.
Qed.

End MapMFailure.

(** X3.  For a series of [n] observations, [0 < n < 213238618720203], the
    held-out part is never empty: [train_size] is below [n].  It is at least
    34% of the series and exceeds 34% by less than one observation.  The
    training part is empty exactly when the series has one observation. *)
Theorem held_out_part_is_never_empty (n : Z) :
  (0 < n < 213238618720203)%Z →
  ∃ size : Z,
    train_size n = inr size ∧
    (0 ≤ size < n)%Z ∧
    (size = 0%Z ↔ n = 1%Z) ∧
    (34 * n ≤ 100 * (n - size) < 34 * n + 100)%Z.
Proof.
  intros Hn. exists (66 * n / 100)%Z.
  split; [apply train_size_floor; lia|].
  Z.div_mod_to_equations. lia.
Qed.

Lemma held_out_part_is_never_empty_witness :
  ∃ size : Z, train_size 36 = inr size ∧ (0 ≤ size < 36)%Z.
Proof.
  destruct (held_out_part_is_never_empty 36) as (size & Hsize & Hrange & _); [lia|].
  exists size. split; [exact Hsize|exact Hrange].
Defined.

(** X4.  Below that bound both parts grow with the series: a longer series
    has a training part and a held-out part that are at least as long, and
    one more observation lengthens exactly one of the two parts, by one. *)
Theorem split_grows_with_the_series (n m : Z) :
  (0 ≤ n ≤ m)%Z → (m < 213238618720203)%Z →
  ∃ size_n size_m : Z,
    train_size n = inr size_n ∧ train_size m = inr size_m ∧
    (size_n ≤ size_m)%Z ∧ (n - size_n ≤ m - size_m)%Z ∧
    (m = n + 1 → size_m = size_n ∨ size_m = size_n + 1)%Z.
Proof.
  intros Hnm Hm. exists (66 * n / 100)%Z, (66 * m / 100)%Z.
  split; [apply train_size_floor; lia|]. split; [apply train_size_floor; lia|].
  Z.div_mod_to_equations. lia.
Qed.

Lemma split_grows_with_the_series_witness :
  ∃ size_n size_m : Z,
    train_size 36 = inr size_n ∧ train_size 37 = inr size_m ∧
    (size_m = size_n ∨ size_m = size_n + 1)%Z.
Proof.
  destruct (split_grows_with_the_series 36 37)
    as (size_n & size_m & Hn & Hm & _ & _ & Hstep); [lia|lia|].
  exists size_n, size_m. split; [exact Hn|]. split; [exact Hm|]. apply Hstep. lia.
Defined.

(** X5.  The walk does not look ahead.  Prediction number [t] is made from
    the first [size + t] observations only: on two series of the same length
    that agree on these, two successful walks record the same prediction
    number [t].  Both walks record one prediction per held-out observation;
    the last observation of a series enters no forecast. *)
Theorem predictions_do_not_look_ahead `{Statsmodels}
    (w1 w2 w1' w2' : world) (X1 X2 test1 test2 : ndarray) (xs ys : list spec_float)
    (o : order) (predictions1 predictions2 : loc) :
  nd_contents (heap w1) X1 = Some xs →
  nd_contents (heap w2) X2 = Some ys →
  length xs = length ys →
  (Z.of_nat (length xs) < 213238618720203)%Z →
  walk_forward X1 o w1 = (w1', inr (test1, predictions1)) →
  walk_forward X2 o w2 = (w2', inr (test2, predictions2)) →
  let size := Z.to_nat (66 * Z.of_nat (length xs) / 100) in
  ∃ preds1 preds2 : list spec_float,
    heap w1' !! predictions1 = Some preds1 ∧
    heap w2' !! predictions2 = Some preds2 ∧
    length preds1 = length xs - size ∧ length preds2 = length xs - size ∧
    ∀ t : nat, take (size + t) xs = take (size + t) ys → preds1 !! t = preds2 !! t.
Proof.
  intros HX1 HX2 Hlen Hn Hwalk1 Hwalk2 size.
  pose proof (floor_66_range (Z.of_nat (length xs)) ltac:(lia)) as Hsize.
  destruct (walk_forward_run w1 X1 xs o HX1) as (v1 & r1 & Hrun1 & _ & _ & Hres1).
  destruct (walk_forward_run w2 X2 ys o HX2) as (v2 & r2 & Hrun2 & _ & _ & Hres2).
  rewrite Hwalk1 in Hrun1. injection Hrun1 as <- <-.
  rewrite Hwalk2 in Hrun2. injection Hrun2 as <- <-.
  rewrite <- Hlen in Hres2.
  rewrite train_size_floor in Hres1, Hres2 by lia.
  set (sz := (66 * Z.of_nat (length xs) / 100)%Z) in *.
  destruct (forecasts (py_slice xs 0 (Some sz)) (py_slice xs sz None) o)
    as [e|preds1] eqn:Hf1; [discriminate|].
  destruct (forecasts (py_slice ys 0 (Some sz)) (py_slice ys sz None) o)
    as [e|preds2] eqn:Hf2; [discriminate|].
  destruct Hres1 as (lp1 & _ & Heq1 & Hlp1 & _).
  destruct Hres2 as (lp2 & _ & Heq2 & Hlp2 & _).
  injection Heq1 as _ <-. injection Heq2 as _ <-.
  destruct (mapM_inr_lookup _ _ _ Hf1) as [Hlen1 Hlk1].
  destruct (mapM_inr_lookup _ _ _ Hf2) as [Hlen2 Hlk2].
  rewrite length_seq in Hlen1, Hlen2.
  assert (Ht1 : length (py_slice xs sz None) = length xs - size).
  { rewrite py_slice_test by lia. apply length_drop. }
  assert (Ht2 : length (py_slice ys sz None) = length xs - size).
  { rewrite py_slice_test by lia. rewrite length_drop. unfold size. lia. }
  exists preds1, preds2. split; [exact Hlp1|]. split; [exact Hlp2|].
  split; [lia|]. split; [lia|].
  intros t Hpre.
  destruct (preds1 !! t) as [y1|] eqn:Hy1.
  - pose proof (lookup_lt_Some _ _ _ Hy1) as Hlt.
    destruct (lookup_lt_is_Some_2 preds2 t ltac:(lia)) as [y2 Hy2].
    rewrite Hy2. f_equal.
    assert (Hs1 : seq 0 (length (py_slice xs sz None)) !! t = Some t).
    { apply lookup_seq. split; [reflexivity|lia]. }
    assert (Hs2 : seq 0 (length (py_slice ys sz None)) !! t = Some t).
    { apply lookup_seq. split; [reflexivity|lia]. }
    pose proof (Hlk1 t t y1 Hs1 Hy1) as Hstep1.
    pose proof (Hlk2 t t y2 Hs2 Hy2) as Hstep2.
    simpl in Hstep1, Hstep2.
    rewrite history_is_prefix in Hstep1 by lia.
    rewrite history_is_prefix in Hstep2 by lia.
    fold size in Hstep1, Hstep2. rewrite Hpre in Hstep1.
    rewrite Hstep1 in Hstep2. injection Hstep2 as ->. reflexivity.
  - apply lookup_ge_None in Hy1. symmetry. apply lookup_ge_None. lia.
Qed.

Lemma predictions_do_not_look_ahead_witness :
  sample_series ≠ revised_series ∧
  take 35 sample_series = take 35 revised_series ∧
  ∃ (w1' w2' : world) (test1 test2 : ndarray) (p1 p2 : loc) (preds1 preds2 : list spec_float),
    @walk_forward persistence sample_array (1, 0, 0)%Z sample_world
      = (w1', inr (test1, p1)) ∧
    @walk_forward persistence sample_array (1, 0, 0)%Z revised_world
      = (w2', inr (test2, p2)) ∧
    heap w1' !! p1 = Some preds1 ∧ heap w2' !! p2 = Some preds2 ∧
    preds1 !! 12 = preds2 !! 12.
Proof.
  split; [intros Heq; vm_compute in Heq; discriminate Heq|].
  split; [vm_compute; reflexivity|].
  assert (Hw1 : ∃ w1' test1 p1,
            @walk_forward persistence sample_array (1, 0, 0)%Z sample_world
            = (w1', inr (test1, p1))) by (eexists _, _, _; vm_compute; reflexivity).
  assert (Hw2 : ∃ w2' test2 p2,
            @walk_forward persistence sample_array (1, 0, 0)%Z revised_world
            = (w2', inr (test2, p2))) by (eexists _, _, _; vm_compute; reflexivity).
  destruct Hw1 as (w1' & test1 & p1 & Hw1). destruct Hw2 as (w2' & test2 & p2 & Hw2).
  destruct (@predictions_do_not_look_ahead persistence
              sample_world revised_world w1' w2' sample_array sample_array test1 test2
              sample_series revised_series (1, 0, 0)%Z p1 p2)
    as (preds1 & preds2 & H1 & H2 & _ & _ & Hsame);
    [vm_compute; reflexivity|vm_compute; reflexivity|vm_compute; reflexivity
    |vm_compute; reflexivity|exact Hw1|exact Hw2|].
  exists w1', w2', test1, test2, p1, p2, preds1, preds2.
  split; [exact Hw1|]. split; [exact Hw2|]. split; [exact H1|]. split; [exact H2|].
  apply (Hsame 12). vm_compute. reflexivity.
Defined.

(** X6.  On a series of at most one observation every model is fitted on
    the empty history: an empty series leads to no fit at all and to
    [mean_squared_error] of two empty lists, and a series of one observation
    to one fit of [ARIMA([], order)], whose forecast is compared with that
    observation. *)
Theorem short_series_fit_on_empty_history `{Statsmodels, Sklearn}
    (w : world) (X : ndarray) (xs : list spec_float) (o : order) :
  nd_contents (heap w) X = Some xs →
  length xs ≤ 1 →
  snd (evaluate_arima_model X o w)
  = (preds ← mapM (λ _, one_step [] o) xs; mean_squared_error xs preds).
Proof.
  intros HX Hlen.
  destruct (evaluate_arima_model_run w X xs o HX) as (w' & -> & _).
  simpl snd. unfold arima_mse.
  rewrite train_size_floor by lia.
  destruct xs as [|x [|y xs]]; [reflexivity|reflexivity|simpl in Hlen; lia].
Qed.

Lemma short_series_fit_on_empty_history_witness :
  nd_contents (heap single_world) single_array = Some [F64.of_int 5] ∧
  snd (@evaluate_arima_model persistence plain_mse single_array (0, 0, 0)%Z single_world)
  = (y ← @one_step persistence [] (0, 0, 0)%Z;
     @mean_squared_error plain_mse [F64.of_int 5] [y]).
Proof.
  split; [vm_compute; reflexivity|].
  rewrite (@short_series_fit_on_empty_history persistence plain_mse
             single_world single_array [F64.of_int 5] (0, 0, 0)%Z);
    [reflexivity|vm_compute; reflexivity|simpl; lia].
Defined.

(** X7.  [evaluate_arima_model] raises nothing of its own.  For a series
    of fewer than 213238618720203 observations, an exception that leaves it
    was raised either by the model of one of the steps, built from a prefix
    of the series that has at least [size] and fewer than [n] observations,
    or by [mean_squared_error], called with the held-out part and as many
    predictions: no index is out of range and no conversion fails. *)
Theorem evaluator_raises_only_library_errors `{Statsmodels, Sklearn}
    (w : world) (X : ndarray) (xs : list spec_float) (o : order) (e : exn) :
  nd_contents (heap w) X = Some xs →
  (Z.of_nat (length xs) < 213238618720203)%Z →
  snd (evaluate_arima_model X o w) = inl e →
  let size := Z.to_nat (66 * Z.of_nat (length xs) / 100) in
  (∃ t : nat, size + t < length xs ∧ one_step (take (size + t) xs) o = inl e) ∨
  (∃ preds : list spec_float,
     length preds = length xs - size ∧
     mean_squared_error (drop size xs) preds = inl e).
Proof.
  intros HX Hn Hraise size.
  pose proof (floor_66_range (Z.of_nat (length xs)) ltac:(lia)) as Hsize.
  destruct (evaluate_arima_model_run w X xs o HX) as (w' & Hrun & _).
  rewrite Hrun in Hraise. simpl in Hraise. unfold arima_mse in Hraise.
  rewrite train_size_floor in Hraise by lia.
  set (sz := (66 * Z.of_nat (length xs) / 100)%Z) in *.
  change (forecasts (py_slice xs 0 (Some sz)) (py_slice xs sz None) o
          ≫= mean_squared_error (py_slice xs sz None) = inl e) in Hraise.
  assert (Htest : py_slice xs sz None = drop size xs) by (apply py_slice_test; lia).
  destruct (forecasts (py_slice xs 0 (Some sz)) (py_slice xs sz None) o)
    as [e'|preds] eqn:Hf; simpl in Hraise.
  - injection Hraise as ->. left.
    apply mapM_inl_lookup in Hf as (i & t & Hi & Ht).
    apply lookup_seq in Hi as [-> Hlt]. simpl in Ht.
    rewrite history_is_prefix in Ht by lia. fold size in Ht.
    rewrite Htest, length_drop in Hlt.
    exists i. split; [lia|exact Ht].
  - right. exists preds. rewrite Htest in Hraise. split; [|exact Hraise].
    apply mapM_inr_lookup in Hf as [Hlen _].
    rewrite Hlen, length_seq, Htest, length_drop. reflexivity.
Qed.

Lemma evaluator_raises_only_library_errors_witness :
  nd_contents (heap sample_world) sample_array = Some sample_series ∧
  snd (@evaluate_arima_model persistence plain_mse sample_array (0, 0, 2)%Z sample_world)
    = inl LinAlgError ∧
  ((∃ t : nat, 23 + t < 36 ∧
      @one_step persistence (take (23 + t) sample_series) (0, 0, 2)%Z = inl LinAlgError) ∨
   (∃ preds : list spec_float,
      length preds = 13 ∧
      @mean_squared_error plain_mse (drop 23 sample_series) preds = inl LinAlgError)).
Proof.
  split; [vm_compute; reflexivity|]. split; [vm_compute; reflexivity|].
  apply (@evaluator_raises_only_library_errors persistence plain_mse
           sample_world sample_array sample_series (0, 0, 2)%Z LinAlgError);
    vm_compute; reflexivity.
Defined.

(** ** The grid search *)

Section GridShape.

Lemma grid_app (ps1 ps2 ds qs : list Z) :
  grid (ps1 ++ ps2) ds qs = grid ps1 ds qs ++ grid ps2 ds qs.
Proof. unfold grid. apply bind_app. Qed.

Lemma grid_length (ps ds qs : list Z) :
  length (grid ps ds qs) = length ps * (length ds * length qs).
Proof.
  unfold grid. apply length_bind_uniform. intros p.
  apply length_bind_uniform. intros d.
  rewrite (bind_singleton_fmap (λ q, (p, d, q))). apply length_fmap.
Qed.

Lemma grid_nil (ps ds qs : list Z) :
  ps = [] ∨ ds = [] ∨ qs = [] → grid ps ds qs = [].
Proof.
  intros Hempty. apply length_zero_iff_nil. rewrite grid_length.
  destruct Hempty as [->|[->| ->]]; simpl; lia.
Qed.

End GridShape.

Section Lines.
Variable score : order → exn + spec_float.

Lemma progress_lines_successful (cfgs : list order) :
  length (progress_lines score cfgs) = length (successful score cfgs) ∧
  length (successful score cfgs) ≤ length cfgs.
Proof.
  unfold progress_lines, successful.
  induction cfgs as [|o cfgs [IH1 IH2]]; [split; reflexivity|].
  cbn. destruct (score o); cbn; lia.
Qed.

Lemma progress_line_printed (cfgs : list order) (c : order) (s : spec_float) :
  c ∈ cfgs → score c = inr s → progress_line c s ∈ progress_lines score cfgs.
Proof.
  intros Hc Hs. unfold progress_lines. apply list_elem_of_omap.
  exists c. rewrite Hs. split; [exact Hc|reflexivity].
Qed.

End Lines.

Section OrderMore.

Lemma leb_nan_r (b : spec_float) : F64.leb b S754_nan = false.
Proof. destruct b as [s|s| |s m e]; reflexivity. Qed.

Lemma ltb_leb_trans (a b c : spec_float) :
  F64.ltb a b = true → F64.leb b c = true → F64.ltb a c = true.
Proof.
  intros Hab Hbc.
  destruct (F64.ltb a c) eqn:Hac; [reflexivity|].
  assert (Ha : a ≠ S754_nan) by (intros ->; rewrite ltb_nan_l in Hab; discriminate).
  assert (Hc : c ≠ S754_nan) by (intros ->; rewrite leb_nan_r in Hbc; discriminate).
  pose proof (ltb_false_leb a c Ha Hc Hac) as Hca.
  pose proof (leb_ltb_trans c a b Hca Hab) as Hcb.
  pose proof (leb_ltb_trans b c b Hbc Hcb) as Hbb.
  rewrite ltb_irrefl in Hbb. discriminate.
Qed.

Lemma ltb_inf_l (b : spec_float) : F64.ltb F64.inf b = false.
Proof. destruct b as [[]|[]| |[] m e]; reflexivity. Qed.

End OrderMore.

Section SearchMore.
Variable score : order → exn + spec_float.

Lemma search_app (cfgs1 cfgs2 : list order) (l : locals) :
  search score (cfgs1 ++ cfgs2) l = search score cfgs2 (search score cfgs1 l).
Proof. unfold search. apply foldl_app. Qed.

(** Continuing a search from [l1] gives the better of [l1] and the result
    of a search that starts afresh. *)
Lemma search_merge (cfgs : list order) (l1 : locals) :
  best_score l1 ≠ S754_nan →
  search score cfgs l1 = better l1 (search score cfgs start_locals).
Proof.
  intros Hnan. induction cfgs as [|o cfgs IH] using rev_ind.
  - unfold better. simpl. rewrite ltb_inf_l. reflexivity.
  - rewrite !search_snoc, IH.
    assert (Hnan2 : best_score (search score cfgs start_locals) ≠ S754_nan).
    { apply search_best_not_nan. discriminate. }
    set (l2 := search score cfgs start_locals) in *.
    unfold better, update.
    destruct (score o) as [e|mse]; [reflexivity|].
    destruct (F64.ltb (best_score l2) (best_score l1)) eqn:HBA.
    + destruct (F64.ltb mse (best_score l2)) eqn:HmB; simpl.
      * rewrite (ltb_trans _ _ _ HmB HBA). reflexivity.
      * rewrite HBA. reflexivity.
    + pose proof (ltb_false_leb _ _ Hnan2 Hnan HBA) as HAB.
      destruct (F64.ltb mse (best_score l1)) eqn:HmA.
      * rewrite (ltb_leb_trans _ _ _ HmA HAB). simpl. rewrite HmA. reflexivity.
      * destruct (F64.ltb mse (best_score l2)); simpl.
        -- rewrite HmA. reflexivity.
        -- rewrite HBA. reflexivity.
Qed.

(** A configuration is reported only with a score below infinity. *)
Lemma search_reported_below_inf (cfgs : list order) :
  let l := search score cfgs start_locals in
  match best_cfg l with
  | Some _ => F64.ltb (best_score l) F64.inf = true
  | None => best_score l = F64.inf
  end.
Proof.
  induction cfgs as [|o cfgs IH] using rev_ind; [reflexivity|].
  simpl in *. rewrite search_snoc. unfold update.
  destruct (score o) as [e|mse]; [exact IH|].
  destruct (F64.ltb mse (best_score (search score cfgs start_locals))) eqn:Hlt; [|exact IH].
  simpl. destruct (best_cfg (search score cfgs start_locals)).
  - eapply ltb_trans; eassumption.
  - rewrite IH in Hlt. exact Hlt.
Qed.

End SearchMore.

(** X8.  When one of the three collections of candidates is empty, no
    order is evaluated, whatever the libraries would do: [evaluate_models]
    ends normally with [best_score] infinite and [best_cfg] [None], and the
    only line it prints is [Best ARIMANone MSE=inf]. *)
Theorem empty_candidate_list_prints_only_summary `{Statsmodels, Sklearn}
    (w : world) (l0 : locals) (dataset : ndarray) (xs : list spec_float)
    (p_values d_values q_values : list Z) :
  nd_contents (heap w) dataset = Some xs →
  p_values = [] ∨ d_values = [] ∨ q_values = [] →
  ∃ w' : world,
    evaluate_models dataset p_values d_values q_values (w, l0)
    = ((w', start_locals), inr tt) ∧
    stdout w' = stdout w ++ [PyStr "Best ARIMANone MSE=inf"].
Proof.
  intros HX Hempty.
  destruct (evaluate_models_run w l0 dataset xs p_values d_values q_values HX)
    as (w' & Hrun & Hout & _).
  rewrite (grid_nil _ _ _ Hempty) in Hrun, Hout.
  exists w'. split; [exact Hrun|exact Hout].
Qed.

Lemma empty_candidate_list_prints_only_summary_witness :
  nd_contents (heap sample_world) sample_array = Some sample_series ∧
  ∃ w' : world,
    @evaluate_models persistence plain_mse sample_array [0; 1; 2]%Z [] [0; 1]%Z
      (sample_world, sample_locals) = ((w', start_locals), inr tt) ∧
    stdout w' = [PyStr "Best ARIMANone MSE=inf"].
Proof.
  split; [vm_compute; reflexivity|].
  apply (@empty_candidate_list_prints_only_summary persistence plain_mse
           sample_world sample_locals sample_array sample_series [0; 1; 2]%Z [] [0; 1]%Z).
  - vm_compute; reflexivity.
  - right. left. reflexivity.
Defined.

(** X9.  [evaluate_models] prints one line for each order whose evaluation
    returned and one summary line, which comes last: the number of lines it
    adds is the number of successful orders plus one, at most
    [len(p_values) * len(d_values) * len(q_values) + 1]. *)
Theorem one_line_per_evaluated_order `{Statsmodels, Sklearn}
    (w : world) (l0 : locals) (dataset : ndarray) (xs : list spec_float)
    (p_values d_values q_values : list Z) :
  nd_contents (heap w) dataset = Some xs →
  let score := arima_mse (F64.to_float32 <$> xs) in
  let cfgs := grid p_values d_values q_values in
  ∃ (w' : world) (l' : locals),
    evaluate_models dataset p_values d_values q_values (w, l0) = ((w', l'), inr tt) ∧
    length (stdout w') = length (stdout w) + length (successful score cfgs) + 1 ∧
    length (successful score cfgs)
      ≤ length p_values * (length d_values * length q_values) ∧
    last (stdout w') = Some (summary_line l').
Proof.
  intros HX score cfgs.
  destruct (evaluate_models_run w l0 dataset xs p_values d_values q_values HX)
    as (w' & Hrun & Hout & _).
  fold score cfgs in Hrun, Hout.
  destruct (progress_lines_successful score cfgs) as [Hlines Hle].
  eexists w', _. split; [exact Hrun|]. split; [|split].
  - rewrite Hout, !length_app, Hlines. simpl. lia.
  - unfold cfgs at 1. rewrite <- grid_length. exact Hle.
  - rewrite Hout, app_assoc. apply last_snoc.
Qed.

Lemma one_line_per_evaluated_order_witness :
  nd_contents (heap sample_world) sample_array = Some sample_series ∧
  ∃ (w' : world) (l' : locals),
    @evaluate_models persistence plain_mse sample_array [0; 1; 4]%Z [0; 1; 3]%Z [0; 1; 2]%Z
      (sample_world, sample_locals) = ((w', l'), inr tt) ∧
    length (stdout w') ≤ 28 ∧
    last (stdout w') = Some (summary_line l').
Proof.
  split; [vm_compute; reflexivity|].
  destruct (@one_line_per_evaluated_order persistence plain_mse
              sample_world sample_locals sample_array sample_series
              [0; 1; 4]%Z [0; 1; 3]%Z [0; 1; 2]%Z)
    as (w' & l' & Hrun & Hlen & Hle & Hlast); [vm_compute; reflexivity|].
  exists w', l'. split; [exact Hrun|]. split; [|exact Hlast].
  change (length [0; 1; 4]%Z * (length [0; 1; 3]%Z * length [0; 1; 2]%Z)) with 27 in Hle.
  change (length (stdout sample_world)) with 0 in Hlen.
  rewrite Hlen. lia.
Defined.

(** X10.  A configuration is reported only with an error strictly below
    infinity.  An order whose error is infinite or NaN gets its progress line
    and is never the reported one; [best_cfg] is [None] at the end exactly
    when no evaluated order has an error below infinity, also when lines were
    printed. *)
Theorem reported_score_is_below_infinity `{Statsmodels, Sklearn}
    (w : world) (l0 : locals) (dataset : ndarray) (xs : list spec_float)
    (p_values d_values q_values : list Z) :
  nd_contents (heap w) dataset = Some xs →
  let score := arima_mse (F64.to_float32 <$> xs) in
  let cfgs := grid p_values d_values q_values in
  ∃ (w' : world) (l' : locals),
    evaluate_models dataset p_values d_values q_values (w, l0) = ((w', l'), inr tt) ∧
    (is_Some (best_cfg l') → F64.ltb (best_score l') F64.inf = true) ∧
    (∀ (c : order) (s : spec_float),
       score c = inr s → F64.ltb s F64.inf = false → best_cfg l' ≠ Some c) ∧
    (best_cfg l' = None ↔
     ∀ (c : order) (s : spec_float), c ∈ cfgs → score c = inr s → F64.ltb s F64.inf = false).
Proof.
  intros HX score cfgs.
  destruct (evaluate_models_run w l0 dataset xs p_values d_values q_values HX)
    as (w' & Hrun & _).
  fold score cfgs in Hrun.
  pose proof (search_reported_below_inf score cfgs) as Hbelow.
  pose proof (search_first_seen_min score cfgs) as [Hmin Hfirst].
  fold start_locals in Hrun, Hmin, Hfirst.
  set (l' := search score cfgs start_locals) in *. simpl in Hbelow.
  assert (Hrep : ∀ c, best_cfg l' = Some c →
            F64.ltb (best_score l') F64.inf = true ∧ c ∈ cfgs ∧ score c = inr (best_score l')).
  { intros c Hc. rewrite Hc in Hbelow, Hfirst.
    destruct Hfirst as (i & Hi & Hs & _). split; [exact Hbelow|].
    split; [|exact Hs]. eapply list_elem_of_lookup_2. exact Hi. }
  exists w', l'. split; [exact Hrun|]. split; [|split].
  - intros [c Hc]. apply (Hrep c Hc).
  - intros c s Hs Hinf Hc. destruct (Hrep c Hc) as (Hlt & _ & Hs').
    rewrite Hs in Hs'. injection Hs' as ->. rewrite Hlt in Hinf. discriminate.
  - split.
    + intros Hnone c s Hc Hs. rewrite Hnone in Hbelow. rewrite <- Hbelow.
      eapply Hmin; eassumption.
    + intros Hall. destruct (best_cfg l') as [c|] eqn:Hc; [|reflexivity].
      destruct (Hrep c eq_refl) as (Hlt & Hin & Hs).
      rewrite (Hall c _ Hin Hs) in Hlt. discriminate.
Qed.

Lemma reported_score_is_below_infinity_witness :
  nd_contents (heap sample_world) sample_array = Some sample_series ∧
  ∃ (w' : world) (l' : locals),
    @evaluate_models persistence plain_mse sample_array [0; 1]%Z [0; 1]%Z [0; 1]%Z
      (sample_world, sample_locals) = ((w', l'), inr tt) ∧
    (is_Some (best_cfg l') → F64.ltb (best_score l') F64.inf = true).
Proof.
  split; [vm_compute; reflexivity|].
  destruct (@reported_score_is_below_infinity persistence plain_mse
              sample_world sample_locals sample_array sample_series
              [0; 1]%Z [0; 1]%Z [0; 1]%Z)
    as (w' & l' & Hrun & Hbelow & _); [vm_compute; reflexivity|].
  exists w', l'. split; [exact Hrun|exact Hbelow].
Defined.

(** X11.  When a configuration is reported, the summary line is the word
    [Best], a space, and the text of one of the progress lines printed
    earlier in the same call: the reported order and error are those of a
    line the user has seen. *)
Theorem summary_repeats_a_progress_line `{Statsmodels, Sklearn}
    (w : world) (l0 : locals) (dataset : ndarray) (xs : list spec_float)
    (p_values d_values q_values : list Z) :
  nd_contents (heap w) dataset = Some xs →
  ∃ (w' : world) (l' : locals),
    evaluate_models dataset p_values d_values q_values (w, l0) = ((w', l'), inr tt) ∧
    (is_Some (best_cfg l') →
     ∃ (i : nat) (line : string),
       length (stdout w) ≤ i ∧ S i < length (stdout w') ∧
       stdout w' !! i = Some (PyStr line) ∧
       last (stdout w') = Some (PyStr ("Best " +:+ line))).
Proof.
  intros HX.
  destruct (evaluate_models_run w l0 dataset xs p_values d_values q_values HX)
    as (w' & Hrun & Hout & _).
  set (score := arima_mse (F64.to_float32 <$> xs)) in *.
  set (cfgs := grid p_values d_values q_values) in *.
  pose proof (search_first_seen_min score cfgs) as [_ Hfirst].
  set (l' := search score cfgs {| best_score := F64.inf; best_cfg := None |}) in *.
  exists w', l'. split; [exact Hrun|].
  intros [c Hc]. rewrite Hc in Hfirst. destruct Hfirst as (k & Hk & Hs & _).
  assert (Hin : progress_line c (best_score l') ∈ progress_lines score cfgs).
  { apply progress_line_printed; [|exact Hs]. eapply list_elem_of_lookup_2. exact Hk. }
  apply list_elem_of_lookup_1 in Hin as [j Hj].
  pose proof (lookup_lt_Some _ _ _ Hj) as Hlt.
  exists (length (stdout w) + j),
         ("ARIMA" +:+ order_str c +:+ " MSE=" +:+ F64.fixed3 (best_score l')).
  split; [lia|]. split; [rewrite Hout, !length_app; simpl; lia|]. split.
  - rewrite Hout, lookup_app_r by lia.
    replace (length (stdout w) + j - length (stdout w)) with j by lia.
    rewrite lookup_app_l by exact Hlt. exact Hj.
  - rewrite Hout, app_assoc, last_snoc. unfold summary_line. rewrite Hc. reflexivity.
Qed.

Lemma summary_repeats_a_progress_line_witness :
  nd_contents (heap sample_world) sample_array = Some sample_series ∧
  ∃ (w' : world) (l' : locals),
    @evaluate_models persistence plain_mse sample_array [0; 1]%Z [0; 1]%Z [0; 1]%Z
      (sample_world, sample_locals) = ((w', l'), inr tt) ∧
    ∃ (i : nat) (line : string),
      stdout w' !! i = Some (PyStr line) ∧
      last (stdout w') = Some (PyStr ("Best " +:+ line)).
Proof.
  split; [vm_compute; reflexivity|].
  destruct (@summary_repeats_a_progress_line persistence plain_mse
              sample_world sample_locals sample_array sample_series
              [0; 1]%Z [0; 1]%Z [0; 1]%Z)
    as (w' & l' & Hrun & Hecho); [vm_compute; reflexivity|].
  assert (Hl : snd (fst (@evaluate_models persistence plain_mse sample_array
                           [0; 1]%Z [0; 1]%Z [0; 1]%Z (sample_world, sample_locals))) = l')
    by (rewrite Hrun; reflexivity).
  destruct Hecho as (i & line & _ & _ & Hi & Hlast).
  { rewrite <- Hl. vm_compute. eexists. reflexivity. }
  exists w', l'. split; [exact Hrun|]. exists i, line. split; [exact Hi|exact Hlast].
Defined.

(** X12.  A search can be split.  The report of a search over
    [ps1 ++ ps2] is the better of the report over [ps1] and the report over
    [ps2], the first one winning a tie: it is the second one exactly when its
    score is strictly below the first one's. *)
Theorem search_of_split_grid_merges `{Statsmodels, Sklearn}
    (w : world) (l0 : locals) (dataset : ndarray) (xs : list spec_float)
    (ps1 ps2 d_values q_values : list Z) :
  nd_contents (heap w) dataset = Some xs →
  let report := λ p_values : list Z,
    snd (fst (evaluate_models dataset p_values d_values q_values (w, l0))) in
  report (ps1 ++ ps2) = better (report ps1) (report ps2).
Proof.
  intros HX report. unfold report.
  destruct (evaluate_models_run w l0 dataset xs (ps1 ++ ps2) d_values q_values HX)
    as (w' & -> & _).
  destruct (evaluate_models_run w l0 dataset xs ps1 d_values q_values HX)
    as (w1 & -> & _).
  destruct (evaluate_models_run w l0 dataset xs ps2 d_values q_values HX)
    as (w2 & -> & _).
  simpl. rewrite grid_app, search_app. apply search_merge.
  apply search_best_not_nan. discriminate.
Qed.

Lemma search_of_split_grid_merges_witness :
  nd_contents (heap sample_world) sample_array = Some sample_series ∧
  snd (fst (@evaluate_models persistence plain_mse sample_array ([0] ++ [1])%Z [0; 1]%Z [0]%Z
              (sample_world, sample_locals)))
  = better
      (snd (fst (@evaluate_models persistence plain_mse sample_array [0]%Z [0; 1]%Z [0]%Z
                   (sample_world, sample_locals))))
      (snd (fst (@evaluate_models persistence plain_mse sample_array [1]%Z [0; 1]%Z [0]%Z
                   (sample_world, sample_locals)))).
Proof.
  split; [vm_compute; reflexivity|].
  apply (@search_of_split_grid_merges persistence plain_mse
           sample_world sample_locals sample_array sample_series [0]%Z [1]%Z [0; 1]%Z [0]%Z).
  vm_compute; reflexivity.
Defined.

(** X13.  The search sees the series through [astype('float32')] only: on
    two series whose elements round to the same binary32 values it reports
    the same order and score and prints the same lines. *)
Theorem report_depends_on_float32_values `{Statsmodels, Sklearn}
    (w1 w2 : world) (l1 l2 : locals) (X1 X2 : ndarray) (xs ys : list spec_float)
    (p_values d_values q_values : list Z) :
  nd_contents (heap w1) X1 = Some xs →
  nd_contents (heap w2) X2 = Some ys →
  F64.to_float32 <$> xs = F64.to_float32 <$> ys →
  let run1 := evaluate_models X1 p_values d_values q_values (w1, l1) in
  let run2 := evaluate_models X2 p_values d_values q_values (w2, l2) in
  snd (fst run1) = snd (fst run2) ∧
  drop (length (stdout w1)) (stdout (fst (fst run1)))
  = drop (length (stdout w2)) (stdout (fst (fst run2))).
Proof.
  intros HX1 HX2 Hsame run1 run2. unfold run1, run2.
  destruct (evaluate_models_run w1 l1 X1 xs p_values d_values q_values HX1)
    as (w1' & -> & Hout1 & _).
  destruct (evaluate_models_run w2 l2 X2 ys p_values d_values q_values HX2)
    as (w2' & -> & Hout2 & _).
  simpl. rewrite Hout1, Hout2, !drop_app_length, Hsame. split; reflexivity.
Qed.

Lemma report_depends_on_float32_values_witness :
  fine_series ≠ coarse_series ∧
  F64.to_float32 <$> fine_series = F64.to_float32 <$> coarse_series ∧
  snd (fst (@evaluate_models persistence plain_mse six_array [0; 1]%Z [0]%Z [0]%Z
              (fine_world, sample_locals)))
  = snd (fst (@evaluate_models persistence plain_mse six_array [0; 1]%Z [0]%Z [0]%Z
                (coarse_world, sample_locals))).
Proof.
  split; [intros Heq; vm_compute in Heq; discriminate Heq|].
  split; [vm_compute; reflexivity|].
  apply (@report_depends_on_float32_values persistence plain_mse
           fine_world coarse_world sample_locals sample_locals six_array six_array
           fine_series coarse_series [0; 1]%Z [0]%Z [0]%Z);
    vm_compute; reflexivity.
Defined.

(** ** The timing scripts *)

Section TimerFailure.
Context `{XGBoost}.

Lemma time_fit_fails (n : Z) (e : exn) (w : timer_world) :
  XGBClassifier_fit n = inl e →
  time_fit n w =
    ({| clock := clock w; ticks := S (ticks w);
        results := results w; printed := printed w |}, inl e).
Proof.
  intros Hn. unfold time_fit, mbind, M_bind, time_time, lift_exn. rewrite Hn. reflexivity.
Qed.

End TimerFailure.

(** X14.  The sweep handles no exception.  When the fit for the [i]-th
    count raises [e], the earlier fits having returned, the sweep ends with
    [e]: [results] holds the [i] samples taken so far, [i] pairs have been
    printed, the clock has been read [2 * i + 1] times, and no later count
    is tried. *)
Theorem timing_sweep_stops_at_first_failure `{XGBoost}
    (num_threads : list Z) (w : timer_world) (i : nat) (n : Z) (e : exn) :
  num_threads !! i = Some n →
  XGBClassifier_fit n = inl e →
  Forall (λ n', XGBClassifier_fit n' = inr tt) (take i num_threads) →
  let durs := duration (clock w) (ticks w) <$> seq 0 i in
  ∃ w' : timer_world,
    timing_sweep num_threads w = (w', inl e) ∧
    results w' = PyFloat <$> durs ∧
    printed w' = printed w ++
                 zip_with (λ n' d, PyTuple [PyInt n'; PyFloat d]) (take i num_threads) durs ∧
    ticks w' = ticks w + 2 * i + 1.
Proof.
  intros Hi Hfail Hbefore durs.
  pose proof (lookup_lt_Some _ _ _ Hi) as Hlt.
  assert (Hsplit : timing_sweep num_threads w
                   = timing_sweep (take i num_threads ++ n :: drop (S i) num_threads) w).
  { rewrite (take_drop_middle num_threads i n Hi). reflexivity. }
  rewrite Hsplit. unfold timing_sweep. rewrite run_bind. unfold results_reset at 1.
  rewrite for_each_app, run_bind.
  match goal with |- context [for_each (take i num_threads) time_fit ?w0] => set (w1 := w0) end.
  destruct (timing_loop_run (take i num_threads) w1 Hbefore)
    as (w2 & Hrun & Hclock & Hticks & Hres & Hpr).
  rewrite length_take, Nat.min_l in Hticks, Hres, Hpr by lia.
  rewrite Hrun. simpl for_each. rewrite run_bind, (time_fit_fails n e w2 Hfail).
  eexists. split; [reflexivity|]. simpl.
  split; [exact Hres|]. split; [exact Hpr|]. rewrite Hticks. simpl. lia.
Qed.

Lemma timing_sweep_stops_at_first_failure_witness :
  @XGBClassifier_fit (fits_up_to 2) 3 = inl (OtherError "XGBoostError") ∧
  ∃ w' : timer_world,
    @timing_sweep (fits_up_to 2) [1; 2; 3; 4]%Z (sample_timer steady_clock)
      = (w', inl (OtherError "XGBoostError")) ∧
    length (results w') = 2 ∧ ticks w' = 5.
Proof.
  split; [reflexivity|].
  destruct (@timing_sweep_stops_at_first_failure (fits_up_to 2) [1; 2; 3; 4]%Z
              (sample_timer steady_clock) 2 3%Z (OtherError "XGBoostError"))
    as (w' & Hrun & Hres & _ & Hticks);
    [reflexivity|reflexivity|repeat constructor|].
  exists w'. split; [exact Hrun|]. split; [rewrite Hres; reflexivity|exact Hticks].
Defined.

(** X15.  Two sweeps run one after the other in one session.  The second
    sweep starts from an empty [results]: at the end the
    list holds the samples of the second sweep only, one per count of the
    second sweep, taken from the clock readings that follow those of the
    first; the printed pairs of both sweeps are kept, in order, and the clock
    has been read twice per fit. *)
Theorem consecutive_sweeps_keep_last_samples `{XGBoost}
    (first second : list Z) (w : timer_world) :
  Forall (λ n, XGBClassifier_fit n = inr tt) first →
  Forall (λ n, XGBClassifier_fit n = inr tt) second →
  let durs1 := duration (clock w) (ticks w) <$> seq 0 (length first) in
  let durs2 := duration (clock w) (ticks w + 2 * length first) <$> seq 0 (length second) in
  ∃ w' : timer_world,
    (timing_sweep first;; timing_sweep second) w = (w', inr tt) ∧
    results w' = PyFloat <$> durs2 ∧
    printed w' = printed w ++
                 zip_with (λ n d, PyTuple [PyInt n; PyFloat d]) first durs1 ++
                 zip_with (λ n d, PyTuple [PyInt n; PyFloat d]) second durs2 ∧
    ticks w' = ticks w + 2 * (length first + length second).
Proof.
  intros Hfirst Hsecond durs1 durs2.
  rewrite run_bind. unfold timing_sweep. rewrite run_bind. unfold results_reset at 1.
  match goal with |- context [for_each first time_fit ?w0] => set (w0' := w0) end.
  destruct (timing_loop_run first w0' Hfirst) as (w1 & Hrun1 & Hclock1 & Hticks1 & _ & Hpr1).
  rewrite Hrun1. rewrite run_bind. unfold results_reset at 1.
  match goal with |- context [for_each second time_fit ?w0] => set (w1' := w0) end.
  destruct (timing_loop_run second w1' Hsecond) as (w2 & Hrun2 & _ & Hticks2 & Hres2 & Hpr2).
  exists w2. split; [exact Hrun2|].
  unfold w1' in Hticks2, Hres2, Hpr2. simpl in Hticks2, Hres2, Hpr2.
  rewrite Hclock1, Hticks1 in Hres2, Hpr2.
  unfold w0' in Hticks1, Hres2, Hpr2, Hpr1. simpl in Hticks1, Hres2, Hpr2, Hpr1.
  split; [exact Hres2|]. split.
  - rewrite Hpr2, Hpr1, <- app_assoc. reflexivity.
  - rewrite Hticks2, Hticks1. lia.
Qed.

Lemma consecutive_sweeps_keep_last_samples_witness :
  Forall (λ n, @XGBClassifier_fit always_fits n = inr tt) [1; 2; 3; 4]%Z ∧
  Forall (λ n, @XGBClassifier_fit always_fits n = inr tt) [1; 2]%Z ∧
  ∃ w' : timer_world,
    (@timing_sweep always_fits [1; 2; 3; 4]%Z;; @timing_sweep always_fits [1; 2]%Z)
      (sample_timer steady_clock) = (w', inr tt) ∧
    length (results w') = 2 ∧ length (printed w') = 6 ∧ ticks w' = 12.
Proof.
  assert (Hfirst : Forall (λ n, @XGBClassifier_fit always_fits n = inr tt) [1; 2; 3; 4]%Z)
    by (repeat constructor).
  assert (Hsecond : Forall (λ n, @XGBClassifier_fit always_fits n = inr tt) [1; 2]%Z)
    by (repeat constructor).
  split; [exact Hfirst|]. split; [exact Hsecond|].
  destruct (@consecutive_sweeps_keep_last_samples always_fits [1; 2; 3; 4]%Z [1; 2]%Z
              (sample_timer steady_clock) Hfirst Hsecond)
    as (w' & Hrun & Hres & Hpr & Hticks).
  exists w'. split; [exact Hrun|].
  split; [rewrite Hres; reflexivity|]. split; [rewrite Hpr; reflexivity|exact Hticks].
Defined.

(** ** The data preparation of the Otto scripts *)

Section MatrixFacts.
Context {A : Type}.

Lemma column_of_rows (rows : list (list A)) (k : nat) :
  Forall (λ r, k < length r) rows →
  ∃ ys : list A,
    mapM (λ r, match r !! k with Some x => inr x | None => inl Stuck end) rows = inr ys ∧
    length ys = length rows ∧
    ∀ (i : nat) (row : list A), rows !! i = Some row →
      ∃ x, row !! k = Some x ∧ ys !! i = Some x.
Proof.
  induction rows as [|r rows IH]; intros Hwf.
  - exists []. split; [reflexivity|]. split; [reflexivity|]. intros i row Hrow. discriminate.
  - apply Forall_cons in Hwf as [Hr Hrows].
    destruct (IH Hrows) as (ys & Hys & Hlen & Hlk).
    destruct (lookup_lt_is_Some_2 r k Hr) as [x Hx].
    exists (x :: ys). split; [|split].
    + simpl. rewrite Hx. simpl. rewrite Hys. reflexivity.
    + simpl. rewrite Hlen. reflexivity.
    + intros [|i] row Hrow; simpl in Hrow.
      * injection Hrow as <-. exists x. split; [exact Hx|reflexivity].
      * apply Hlk. exact Hrow.
Qed.

End MatrixFacts.

(** X16.  The split of the table into [X] and [y].  A table with fewer
    than 95 columns makes [dataset[:,94]] raise [IndexError], also when the
    table has no row.  Otherwise [X] has 94 columns and [y] one label per
    row, and every row is its row of [X], then its label, then the columns
    from the 96th on, which go to neither; on a table of exactly 95 columns
    nothing is lost. *)
Theorem features_and_labels_partition_rows {A : Type} (dataset : matrix A) :
  matrix_wf dataset →
  (n_cols dataset ≤ 94 → split_X_y dataset = inl IndexError) ∧
  (94 < n_cols dataset →
   ∃ (X : matrix A) (y : list A),
     split_X_y dataset = inr (X, y) ∧
     n_cols X = 94 ∧ matrix_wf X ∧
     length (m_rows X) = length (m_rows dataset) ∧
     length y = length (m_rows dataset) ∧
     ∀ (i : nat) (row : list A), m_rows dataset !! i = Some row →
       ∃ (features : list A) (label : A),
         m_rows X !! i = Some features ∧ y !! i = Some label ∧
         row = features ++ label :: drop 95 row ∧
         (n_cols dataset = 95 → row = features ++ [label])).
Proof.
  intros Hwf. unfold split_X_y, matrix_column. split.
  - intros Hle.
    destruct (Z.ltb_spec 94 0) as [?|_]; [lia|].
    destruct (Z.ltb_spec 94 (Z.of_nat (n_cols dataset))) as [?|_]; [lia|].
    reflexivity.
  - intros Hgt.
    destruct (Z.ltb_spec 94 0) as [?|_]; [lia|].
    destruct (Z.ltb_spec 94 (Z.of_nat (n_cols dataset))) as [_|?]; [|lia].
    change (Z.to_nat 94) with 94. simpl andb. cbv iota.
    destruct (column_of_rows (m_rows dataset) 94) as (y & Hy & Hlen & Hlk).
    { eapply Forall_impl; [exact Hwf|]. simpl. intros r ->. exact Hgt. }
    rewrite Hy.
    assert (HX : matrix_columns dataset 0 94
                 = {| n_cols := 94; m_rows := take 94 <$> m_rows dataset |}).
    { unfold matrix_columns, slice_index.
      destruct (Z.ltb_spec 0 0) as [?|_]; [lia|].
      destruct (Z.ltb_spec 94 0) as [?|_]; [lia|].
      rewrite Z.min_l by lia. rewrite Z.min_l by lia. reflexivity. }
    rewrite HX. eexists _, y. split; [reflexivity|]. simpl.
    split; [reflexivity|]. split; [|split; [apply length_fmap|split; [exact Hlen|]]].
    + unfold matrix_wf. simpl. apply Forall_fmap.
      eapply Forall_impl; [exact Hwf|]. simpl. intros r Hr.
      rewrite length_take. lia.
    + intros i row Hrow. destruct (Hlk i row Hrow) as (x & Hx & Hyi).
      exists (take 94 row), x. rewrite list_lookup_fmap, Hrow.
      split; [reflexivity|]. split; [exact Hyi|].
      pose proof (take_drop_middle row 94 x Hx) as Hmid. split; [symmetry; exact Hmid|].
      intros H95. rewrite <- Hmid at 1. f_equal. f_equal.
      apply drop_ge. rewrite (Forall_lookup_1 _ _ i row Hwf Hrow). lia.
Qed.

Lemma features_and_labels_partition_rows_witness :
  matrix_wf sample_matrix ∧
  ∃ (X : matrix Z) (y : list Z),
    split_X_y sample_matrix = inr (X, y) ∧ n_cols X = 94 ∧ length y = 2.
Proof.
  assert (Hwf : matrix_wf sample_matrix) by (repeat constructor).
  split; [exact Hwf|].
  destruct (features_and_labels_partition_rows sample_matrix Hwf) as [_ Hsplit].
  destruct Hsplit as (X & y & Hrun & Hcols & _ & _ & Hlen & _); [simpl; lia|].
  exists X, y. split; [exact Hrun|]. split; [exact Hcols|exact Hlen].
Defined.

(** ** The cross-validation timing script *)

Section FixedPoint.

Lemma pad3_zeros (n : Z) :
  (0 ≤ n < 1000)%Z → zeros (3 - String.length (pretty n)) +:+ pretty n = F64.pad3 n.
Proof.
  intros Hn.
  assert (Hall : forallb (λ k, String.eqb (zeros (3 - String.length (pretty k)) +:+ pretty k)
                                        (F64.pad3 k))
                   (Z.of_nat <$> seq 0 1000) = true) by (vm_compute; reflexivity).
  rewrite forallb_forall in Hall.
  apply String.eqb_eq, Hall. apply list_elem_of_In, list_elem_of_fmap.
  exists (Z.to_nat n). split; [lia|]. apply elem_of_seq. lia.
Qed.

(** With three decimals, [fixed_point] is the text that [%.3f] gives. *)
Lemma fixed_point_3 (x : spec_float) : fixed_point 3 x = F64.fixed3 x.
Proof.
  destruct x as [s|s| |s m e]; try reflexivity.
  unfold fixed_point, F64.fixed3.
  change (10 ^ Z.of_nat 3)%Z with 1000%Z. change (3 =? 0) with false. cbv iota.
  rewrite pad3_zeros; [reflexivity|]. apply Z.mod_pos_bound. lia.
Qed.

End FixedPoint.

Section CrossVal.
Context `{ModelSelection}.

#[local] Arguments fixed_point : simpl never.

Lemma timed_cross_val_returns (fmt : string) (nthread n_jobs : Z) (line : spec_float → string)
    (scores : list spec_float) (w : timer_world) :
  (∀ x, py_format_f fmt [PyFloat x] = inr (line x)) →
  cross_val_score nthread n_jobs = inr scores →
  timed_cross_val fmt nthread n_jobs w =
    ({| clock := clock w; ticks := S (S (ticks w));
        results := PyFloat <$> scores;
        printed := printed w ++
                   [PyStr (line (F64.sub (clock w (S (ticks w))) (clock w (ticks w))))] |},
     inr tt).
Proof.
  intros Hfmt Hcv.
  unfold timed_cross_val, mbind, M_bind, time_time, lift_exn, results_assign.
  rewrite Hcv. simpl. rewrite Hfmt. reflexivity.
Qed.

Lemma timed_cross_val_raises (fmt : string) (nthread n_jobs : Z) (e : exn)
    (w : timer_world) :
  cross_val_score nthread n_jobs = inl e →
  timed_cross_val fmt nthread n_jobs w =
    ({| clock := clock w; ticks := S (ticks w);
        results := results w; printed := printed w |}, inl e).
Proof.
  intros Hcv.
  unfold timed_cross_val, mbind, M_bind, time_time, lift_exn. rewrite Hcv. reflexivity.
Qed.

(** The three format strings accept a float, whatever its value. *)
Lemma cv_formats (x : spec_float) :
  py_format_f "Single Thread XGBoost, Parallel Thread CV: %f" [PyFloat x]
  = inr ("Single Thread XGBoost, Parallel Thread CV: " +:+ fixed_point 6 x) ∧
  py_format_f "Parallel Thread XGBoost, Single Thread CV: %f" [PyFloat x]
  = inr ("Parallel Thread XGBoost, Single Thread CV: " +:+ fixed_point 6 x) ∧
  py_format_f "Parallel Thread XGBoost and CV: %f" [PyFloat x]
  = inr ("Parallel Thread XGBoost and CV: " +:+ fixed_point 6 x).
Proof. simpl. rewrite string_app_nil_r. repeat split. Qed.

End CrossVal.

(** X17.  The cross-validation script prints one line per measurement
    that completed, in the order of the script, each with the difference of
    the two clock readings taken around its call; the formatting never
    raises.  The first cross-validation that raises ends the script with its
    exception, after the lines of the measurements before it and one more
    clock reading; [results] then holds the scores of the last call that
    returned, or what it held before when none did.  The script ends normally
    exactly when the three calls return. *)
Theorem cross_validation_prints_completed_measurements `{ModelSelection}
    (w : timer_world) :
  let outcomes := [cross_val_score 1 (-1); cross_val_score (-1) 1;
                   cross_val_score (-1) (-1)] in
  let k := completed outcomes in
  let w' := fst (parallel_cross_validation w) in
  printed w' = printed w ++ take k (cv_lines (clock w) (ticks w)) ∧
  ticks w' = ticks w + 2 * k + (if decide (k < 3) then 1 else 0) ∧
  (snd (parallel_cross_validation w) = inr tt ↔ k = 3) ∧
  (∀ e : exn, outcomes !! k = Some (inl e) → snd (parallel_cross_validation w) = inl e) ∧
  (∀ (i : nat) (scores : list spec_float),
     k = S i → outcomes !! i = Some (inr scores) → results w' = PyFloat <$> scores) ∧
  (k = 0 → results w' = results w).
Proof.
  intros outcomes k w'. unfold w', k, outcomes, parallel_cross_validation.
  pose proof (λ x, proj1 (cv_formats x)) as Hf1.
  pose proof (λ x, proj1 (proj2 (cv_formats x))) as Hf2.
  pose proof (λ x, proj2 (proj2 (cv_formats x))) as Hf3.
  rewrite run_bind.
  destruct (cross_val_score 1 (-1)) as [e1|s1] eqn:H1.
  { rewrite (timed_cross_val_raises _ _ _ e1 _ H1). simpl.
    rewrite app_nil_r. split; [reflexivity|]. split; [lia|]. split; [split; discriminate|].
    split; [intros e Heq; injection Heq as ->; reflexivity|].
    split; [intros i scores Hk; discriminate|reflexivity]. }
  rewrite (timed_cross_val_returns _ _ _ _ s1 _ Hf1 H1). cbv beta iota. rewrite run_bind.
  destruct (cross_val_score (-1) 1) as [e2|s2] eqn:H2.
  { rewrite (timed_cross_val_raises _ _ _ e2 _ H2). simpl.
    split; [unfold duration; repeat f_equal; lia|]. split; [lia|].
    split; [split; discriminate|].
    split; [intros e Heq; injection Heq as ->; reflexivity|].
    split; [|discriminate].
    intros i scores Hk Hs. injection Hk as <-. injection Hs as <-. reflexivity. }
  rewrite (timed_cross_val_returns _ _ _ _ s2 _ Hf2 H2). cbv beta iota.
  destruct (cross_val_score (-1) (-1)) as [e3|s3] eqn:H3.
  { rewrite (timed_cross_val_raises _ _ _ e3 _ H3). simpl.
    split; [rewrite <- app_assoc; unfold duration; simpl; repeat f_equal; lia|].
    split; [lia|]. split; [split; discriminate|].
    split; [intros e Heq; injection Heq as ->; reflexivity|].
    split; [|discriminate].
    intros i scores Hk Hs. injection Hk as <-. injection Hs as <-. reflexivity. }
  rewrite (timed_cross_val_returns _ _ _ _ s3 _ Hf3 H3). simpl.
  split; [rewrite <- !app_assoc; unfold duration; simpl; repeat f_equal; lia|].
  split; [lia|]. split; [split; reflexivity|].
  split; [intros e Heq; discriminate|].
  split; [|discriminate].
  intros i scores Hk Hs. injection Hk as <-. injection Hs as <-. reflexivity.
Qed.

(** With a cross validation that fails when it runs on a single job, the
    script prints its first line and stops. *)
Example cross_validation_stops_at_second_call :
  let run := @parallel_cross_validation single_job_fails (sample_timer steady_clock) in
  snd run = inl (OtherError "JoblibError") ∧
  printed (fst run) = [PyStr "Single Thread XGBoost, Parallel Thread CV: 1.000000"] ∧
  fixed_point 6 (F64.div (F64.of_int 359854589) (F64.of_int 1000000)) = "359.854589".
Proof. vm_compute. repeat split. Qed.
